(** * Poor Richard's Settings: [update_from_env] and [get_missing_settings]

    A shallow embedding of [conf.py].  A settings class is its namespace
    ([vars(settings_class)], in insertion order), the attributes it inherits
    and the table that [get_type_hints] returns for it.  The process
    environment is the list of its (key, value) entries in iteration order.

    Strings are byte strings: [str.lower] and the whitespace that [int]
    strips are modelled on the ASCII range.  A call either returns a value
    or raises an exception of some class, recorded in [outcome]. *)

From Stdlib Require Import String Ascii List ZArith Lia Bool Arith.
From Stdlib Require Import DecimalString.
Import ListNotations.
Open Scope string_scope.
Set Warnings "-register-all".

(** ** String built-ins *)

Module Str.

(** [k.startswith(p)] *)
Definition startswith (k p : string) : bool := String.prefix p k.

(** [s[:n]] *)
Fixpoint take (n : nat) (s : string) : string :=
  match n, s with
  | S n', String c s' => String c (take n' s')
  | _, _ => EmptyString
  end.

(** [s[n:]] *)
Fixpoint drop (n : nat) (s : string) : string :=
  match n, s with
  | S n', String c s' => drop n' s'
  | _, _ => s
  end.

(** [needle in hay] for two strings. *)
Fixpoint contains (needle hay : string) : bool :=
  String.prefix needle hay ||
  match hay with
  | EmptyString => false
  | String _ hay' => contains needle hay'
  end.

Definition lower_ascii (c : ascii) : ascii :=
  let n := nat_of_ascii c in
  if (65 <=? n)%nat && (n <=? 90)%nat then ascii_of_nat (n + 32) else c.

(** [s.lower()] *)
Fixpoint lower (s : string) : string :=
  match s with
  | EmptyString => EmptyString
  | String c s' => String (lower_ascii c) (lower s')
  end.

(** Left-to-right scan of [s.replace(p, "")] for a non-empty [p]: [skip]
    counts the characters of the current occurrence still to be dropped. *)
Fixpoint remove_from (p : string) (skip : nat) (s : string) : string :=
  match s with
  | EmptyString => EmptyString
  | String c s' =>
      match skip with
      | S n => remove_from p n s'
      | O =>
          if String.prefix p s
          then remove_from p (String.length p - 1) s'
          else String c (remove_from p 0 s')
      end
  end.

(** [s.replace(p, "")]: every non-overlapping occurrence of [p] is removed;
    replacing the empty string by the empty string changes nothing. *)
Definition remove_all (p s : string) : string :=
  match p with
  | EmptyString => s
  | _ => remove_from p 0 s
  end.

End Str.

(** ** Values, exceptions and outcomes *)

(** [VTuple] stands for a tuple or a list: the code only tests membership
    in it, slices it and prints it. *)
Inductive value : Type :=
| VNone
| VBool (b : bool)
| VInt (z : Z)
| VStr (s : string)
| VTuple (items : list value).

(** Exception classes; each constructor stands for the class and its
    subclasses.  [OtherError] is any class outside the four named ones. *)
Inductive exn : Type :=
| AttributeError
| KeyError
| TypeError
| ValueError
| OtherError.

Inductive outcome (A : Type) : Type :=
| Ok (a : A)
| Raise (e : exn).
Arguments Ok {A} a.
Arguments Raise {A} e.

Definition is_none (v : value) : bool :=
  match v with VNone => true | _ => false end.

(** [x == VStr a] when [x] is compared with a string. *)
Definition eq_str (a : string) (x : value) : bool :=
  match x with VStr s => String.eqb a s | _ => false end.

(** [a in container] for a string [a]: element equality for a sequence,
    substring test for a string, [TypeError] for a value that is not
    iterable. *)
Definition py_in (a : string) (container : value) : outcome bool :=
  match container with
  | VTuple items => Ok (existsb (eq_str a) items)
  | VStr s => Ok (Str.contains a s)
  | VNone | VBool _ | VInt _ => Raise TypeError
  end.

(** [v[:4]] *)
Definition slice4 (v : value) : outcome value :=
  match v with
  | VStr s => Ok (VStr (Str.take 4 s))
  | VTuple items => Ok (VTuple (firstn 4 items))
  | VNone | VBool _ | VInt _ => Raise TypeError
  end.

(** ** [str()] and [repr()] *)

Module Repr.

Definition hex_digit (n : nat) : ascii :=
  ascii_of_nat (if (n <? 10)%nat then 48 + n else 87 + n).

Definition has_char (c : ascii) (s : string) : bool :=
  Str.contains (String c EmptyString) s.

Definition squote : ascii := ascii_of_nat 39.
Definition dquote : ascii := ascii_of_nat 34.
Definition backslash : ascii := ascii_of_nat 92.

(** The quote [repr] picks: double quotes only when the string has a
    single quote and no double quote. *)
Definition quote_of (s : string) : ascii :=
  if has_char squote s && negb (has_char dquote s) then dquote else squote.

Definition escape_char (q c : ascii) : string :=
  let n := nat_of_ascii c in
  if Ascii.eqb c q || Ascii.eqb c backslash then String backslash (String c EmptyString)
  else if (n =? 9)%nat then String backslash "t"
  else if (n =? 10)%nat then String backslash "n"
  else if (n =? 13)%nat then String backslash "r"
  else if (n <? 32)%nat || (n =? 127)%nat
       then String backslash
              (String "x" (String (hex_digit (n / 16)) (String (hex_digit (n mod 16)) EmptyString)))
  else String c EmptyString.

Fixpoint escape (q : ascii) (s : string) : string :=
  match s with
  | EmptyString => EmptyString
  | String c s' => escape_char q c ++ escape q s'
  end.

Definition repr_str (s : string) : string :=
  let q := quote_of s in
  String q (escape q s ++ String q EmptyString).

Definition str_int (z : Z) : string := NilZero.string_of_int (Z.to_int z).

Definition str_bool (b : bool) : string := if b then "True" else "False".

Fixpoint repr (v : value) : string :=
  match v with
  | VNone => "None"
  | VBool b => str_bool b
  | VInt z => str_int z
  | VStr s => repr_str s
  | VTuple items =>
      let fix join (l : list value) : string :=
        match l with
        | [] => ""
        | [x] => repr x
        | x :: l' => repr x ++ ", " ++ join l'
        end in
      match items with
      | [x] => "(" ++ repr x ++ ",)"
      | _ => "(" ++ join items ++ ")"
      end
  end.

(** ["{}".format(v)], that is [str(v)]. *)
Definition str (v : value) : string :=
  match v with
  | VStr s => s
  | _ => repr v
  end.

End Repr.

(** ** Declared types

    A type hint is used in one way only: it is called on the raw string.
    The call returns the converted value or raises. *)

Definition hint : Type := string -> outcome value.

Module Hint.

Definition is_space (c : ascii) : bool :=
  let n := nat_of_ascii c in
  ((9 <=? n)%nat && (n <=? 13)%nat) || (n =? 32)%nat.

Fixpoint lstrip (s : string) : string :=
  match s with
  | String c s' => if is_space c then lstrip s' else s
  | EmptyString => EmptyString
  end.

Fixpoint rstrip (s : string) : string :=
  match s with
  | EmptyString => EmptyString
  | String c s' =>
      match rstrip s' with
      | EmptyString => if is_space c then EmptyString else String c EmptyString
      | r => String c r
      end
  end.

Definition digit_of (c : ascii) : option Z :=
  let n := nat_of_ascii c in
  if (48 <=? n)%nat && (n <=? 57)%nat then Some (Z.of_nat (n - 48)) else None.

(** Decimal digits, with single underscores allowed between two digits. *)
Fixpoint digits (acc : Z) (after_digit : bool) (s : string) : option Z :=
  match s with
  | EmptyString => if after_digit then Some acc else None
  | String c s' =>
      match digit_of c with
      | Some d => digits (10 * acc + d) true s'
      | None =>
          if Ascii.eqb c "_" && after_digit then digits acc false s' else None
      end
  end.

Definition signed (s : string) : option Z :=
  match s with
  | String "-" s' => option_map Z.opp (digits 0 false s')
  | String "+" s' => digits 0 false s'
  | _ => digits 0 false s
  end.

(** [int(s)]: surrounding whitespace is stripped, then an optional sign and
    a decimal literal; anything else is a [ValueError].  The interpreter's
    configurable limit on the number of digits is not modelled. *)
Definition int : hint := fun s =>
  match signed (rstrip (lstrip s)) with
  | Some z => Ok (VInt z)
  | None => Raise ValueError
  end.

(** [bool(s)]: true for every non-empty string. *)
Definition bool : hint := fun s =>
  Ok (VBool (negb (String.eqb s ""))).

(** [str(s)] *)
Definition str : hint := fun s => Ok (VStr s).

(** A [typing] alias such as [List[int]] or [Tuple[str]]: calling it raises
    [TypeError] ("Type List cannot be instantiated"). *)
Definition typing_alias : hint := fun _ => Raise TypeError.

End Hint.

(** ** The settings class *)

Definition namespace : Type := list (string * value).

(** [own] lists the names bound in the class body, in order; the entries the
    interpreter adds to every class ([__module__], [__dict__], [__doc__],
    ...) start with an underscore and are left out.  [annotations] is the
    table of [get_type_hints], taken as given for the class. *)
Record settings_class : Type := {
  own : namespace;                     (* vars(settings_class) *)
  inherited : namespace;               (* attributes of the base classes *)
  annotations : list (string * hint)   (* get_type_hints(settings_class) *)
}.

Fixpoint lookup {A : Type} (a : string) (d : list (string * A)) : option A :=
  match d with
  | [] => None
  | (b, x) :: d' => if String.eqb a b then Some x else lookup a d'
  end.

(** Storing into a dict: an existing key keeps its place, a new key goes to
    the end. *)
Fixpoint store (a : string) (v : value) (d : namespace) : namespace :=
  match d with
  | [] => [(a, v)]
  | (b, x) :: d' => if String.eqb a b then (b, v) :: d' else (b, x) :: store a v d'
  end.

(** [vars(settings_class)], as the list of its keys. *)
Definition vars (c : settings_class) : list string := map fst (own c).

Definition find_attr (c : settings_class) (a : string) : option value :=
  match lookup a (own c) with
  | Some v => Some v
  | None => lookup a (inherited c)
  end.

(** [getattr(settings_class, a)] *)
Definition getattr (c : settings_class) (a : string) : outcome value :=
  match find_attr c a with
  | Some v => Ok v
  | None => Raise AttributeError
  end.

(** [getattr(settings_class, a, default)] *)
Definition getattr_default (c : settings_class) (a : string) (default : value) : value :=
  match find_attr c a with
  | Some v => v
  | None => default
  end.

(** The class with [a] bound to [v] in its own namespace. *)
Definition with_attr (c : settings_class) (a : string) (v : value) : settings_class :=
  {| own := store a v (own c);
     inherited := inherited c;
     annotations := annotations c |}.

(** The attributes that [type] gives every class and does not let be
    rebound: assigning to one raises [AttributeError]. *)
Definition readonly_names : list string :=
  ["__base__"; "__basicsize__"; "__dict__"; "__dictoffset__"; "__flags__";
   "__itemsize__"; "__mro__"; "__text_signature__"; "__weakrefoffset__"].

Definition among (a : string) (names : list string) : bool :=
  existsb (String.eqb a) names.

(** What [type.__setattr__] has against binding [a] to [v] (CPython 3.8 to
    3.11): nothing for an ordinary name; [AttributeError] for a read-only
    attribute of the class; [TypeError] for [__bases__] and [__class__],
    which take classes only, and for [__name__] and [__qualname__] given
    anything but a string. *)
Definition refused (a : string) (v : value) : option exn :=
  if among a readonly_names then Some AttributeError
  else if among a ["__bases__"; "__class__"] then Some TypeError
  else if among a ["__name__"; "__qualname__"]
       then match v with
            | VStr _ => None
            | _ => Some TypeError
            end
  else None.

(** [setattr(settings_class, a, v)] on a class defined by a [class]
    statement.  A name that is not refused is bound in the namespace of the
    class.  ([__name__] and [__qualname__] are kept by the class outside
    [vars]; the model files them with the other names, which neither
    function can tell apart: both names start with an underscore, and
    [getattr] finds them either way.) *)
Definition setattr (c : settings_class) (a : string) (v : value)
  : outcome settings_class :=
  match refused a v with
  | Some e => Raise e
  | None => Ok (with_attr c a v)
  end.

(** The process environment, [os.environ], in iteration order.  It is a
    mapping, so [os.getenv(k)] for a key [k] met while iterating is the value
    paired with [k]. *)
Definition environ : Type := list (string * string).

(** ** [update_from_env] *)

(** [k.replace(prefix, "").lower()] *)
Definition attr_of (prefix k : string) : string :=
  Str.lower (Str.remove_all prefix k).

(** [type_hints.get(attr)(v)]: [dict.get] gives [None] for a name without a
    hint, and calling [None] raises [TypeError]. *)
Definition call_hint (h : option hint) (raw : string) : outcome value :=
  match h with
  | Some f => f raw
  | None => Raise TypeError
  end.

(** The classes named by [except (AttributeError, KeyError, TypeError)]. *)
Definition caught (e : exn) : bool :=
  match e with
  | AttributeError | KeyError | TypeError => true
  | ValueError | OtherError => false
  end.

(** The [try] block: the converted value, the raw string when the conversion
    raised one of the caught classes, the exception otherwise. *)
Definition typecast (type_hints : list (string * hint)) (attr raw : string)
  : outcome value :=
  match call_hint (lookup attr type_hints) raw with
  | Ok v => Ok v
  | Raise e => if caught e then Ok (VStr raw) else Raise e
  end.

(** The third argument of the trace line:
    ["****{}".format(v[:4]) if "password" in attr else v], as formatted. *)
Definition displayed (attr : string) (v : value) : outcome string :=
  if Str.contains "password" attr
  then match slice4 v with
       | Ok head => Ok ("****" ++ Repr.str head)
       | Raise e => Raise e
       end
  else Ok (Repr.str v).

Definition skipping_line (k : string) : string :=
  "Skipping " ++ k ++ ". Disallowed set from environ.".

Definition found_line (k attr shown : string) : string :=
  "Found environment variable: " ++ k ++ ". (" ++ attr ++ "=" ++ shown ++ ")".

(** One iteration of the loop over [os.environ]: the lines passed to
    [logger.debug], and the class after the iteration or the exception that
    leaves the loop.  The trace line of a variable is passed to the logger
    before the [setattr], so it is there also when the [setattr] raises; an
    iteration that raises leaves the class as it found it. *)
Definition bind_one (type_hints : list (string * hint)) (prefix : string)
    (entry : string * string) (c : settings_class)
  : list string * outcome settings_class :=
  let (k, raw) := entry in
  if negb (Str.startswith k prefix) then ([], Ok c)
  else
    let attr := attr_of prefix k in
    match py_in attr (getattr_default c "_no_environ_set" (VTuple [])) with
    | Raise e => ([], Raise e)
    | Ok true => ([skipping_line k], Ok c)
    | Ok false =>
        match typecast type_hints attr raw with
        | Raise e => ([], Raise e)
        | Ok v =>
            match displayed attr v with
            | Raise e => ([], Raise e)
            | Ok shown => ([found_line k attr shown], setattr c attr v)
            end
        end
    end.

(** What a call leaves behind: the class, the trace, and the exception that
    escaped, if one did. *)
Record run : Type := {
  after : settings_class;
  trace : list string;
  raised : option exn
}.

Fixpoint bind_loop (type_hints : list (string * hint)) (prefix : string)
    (env : environ) (c : settings_class) (tr : list string) : run :=
  match env with
  | [] => {| after := c; trace := tr; raised := None |}
  | entry :: env' =>
      let (lines, result) := bind_one type_hints prefix entry c in
      match result with
      | Raise e => {| after := c; trace := tr ++ lines; raised := Some e |}
      | Ok c' => bind_loop type_hints prefix env' c' (tr ++ lines)
      end
  end.

(** [update_from_env(settings_class, prefix=prefix)] in the environment
    [env].  The type hints are read once, before the loop. *)
Definition update_from_env (c : settings_class) (prefix : string) (env : environ)
  : run :=
  let type_hints := annotations c in
  bind_loop type_hints prefix env c [].

(** ** [get_missing_settings] *)

Fixpoint missing_loop (c : settings_class) (names : list string)
    (missing_settings : list string) : outcome (list string) :=
  match names with
  | [] => Ok missing_settings
  | attr :: names' =>
      if Str.startswith attr "_" then missing_loop c names' missing_settings
      else
        match py_in attr (getattr_default c "_optional_settings" (VTuple [])) with
        | Raise e => Raise e
        | Ok true => missing_loop c names' missing_settings
        | Ok false =>
            match getattr c attr with
            | Raise e => Raise e
            | Ok v =>
                if is_none v
                then missing_loop c names' (missing_settings ++ [attr])
                else missing_loop c names' missing_settings
            end
        end
  end.

Definition get_missing_settings (c : settings_class) : outcome (list string) :=
  missing_loop c (vars c) [].

(** ** The classes of the module's own tests *)

Module Tests.

(** [TestSettings] of [test_get_missing_settings]. *)
Definition MissingTestSettings : settings_class :=
  {| own := [("_optional_settings", VTuple [VStr "optional"]);
             ("setting1", VNone);
             ("setting2", VInt 123);
             ("optional", VNone)];
     inherited := [];
     annotations := [("setting1", Hint.str); ("setting2", Hint.int);
                     ("optional", Hint.str)] |}.

(** [TestSettings] of [test_update_from_env]. *)
Definition EnvTestSettings : settings_class :=
  {| own := [("_no_environ_set", VTuple [VStr "s5"]);
             ("s1", VNone); ("s2", VNone); ("s3", VNone); ("s4", VNone);
             ("s5", VTuple [VInt 1; VInt 2; VInt 3])];
     inherited := [];
     annotations := [("s1", Hint.int); ("s2", Hint.bool); ("s3", Hint.str);
                     ("s4", Hint.str); ("s5", Hint.typing_alias)] |}.

Definition test_environ : environ :=
  [("MYAPP_S1", "32"); ("MYAPP_S2", "1"); ("MYAPP_S3", "a test");
   ("MYAPP_S5", "should be skipped")].

End Tests.

(** ** Threads calling [update_from_env]

    [with threading.Lock():] builds a lock object when the statement is
    reached and acquires that object.  A lock is identified by its allocation
    number; a thread that has passed [threading.Lock()] waits while the lock
    it built is held.  One loop iteration is taken as one step, which is
    coarser than the interpreter's scheduling. *)

Module Threads.

Definition lock : Type := nat.

Inductive pc : Type :=
| AtCall (prefix : string) (env : environ)
| AtEnter (l : lock) (type_hints : list (string * hint)) (prefix : string)
          (env : environ)
| InLoop (l : lock) (type_hints : list (string * hint)) (prefix : string)
         (env : environ)
| Finished (e : option exn).

Record world : Type := {
  cls : settings_class;            (* the class shared by all callers *)
  next_lock : lock;                (* allocation counter of lock objects *)
  held : list lock;                (* the locks currently held *)
  events : list (nat * string)     (* trace lines, with the emitting thread *)
}.

Definition release (l : lock) (hs : list lock) : list lock :=
  filter (fun h => negb (Nat.eqb h l)) hs.

Definition is_held (l : lock) (hs : list lock) : bool :=
  existsb (Nat.eqb l) hs.

(** One step of thread [tid] at program point [p]; [None] when the thread
    cannot move (it waits for its lock, or it has returned). *)
Definition step (tid : nat) (p : pc) (w : world) : option (pc * world) :=
  match p with
  | AtCall prefix env =>
      Some (AtEnter (next_lock w) (annotations (cls w)) prefix env,
            {| cls := cls w; next_lock := S (next_lock w);
               held := held w; events := events w |})
  | AtEnter l type_hints prefix env =>
      if is_held l (held w) then None
      else Some (InLoop l type_hints prefix env,
                 {| cls := cls w; next_lock := next_lock w;
                    held := l :: held w; events := events w |})
  | InLoop l type_hints prefix [] =>
      Some (Finished None,
            {| cls := cls w; next_lock := next_lock w;
               held := release l (held w); events := events w |})
  | InLoop l type_hints prefix (entry :: env') =>
      let (lines, result) := bind_one type_hints prefix entry (cls w) in
      match result with
      | Ok c' =>
          Some (InLoop l type_hints prefix env',
                {| cls := c'; next_lock := next_lock w; held := held w;
                   events := events w ++ map (pair tid) lines |})
      | Raise e =>
          Some (Finished (Some e),
                {| cls := cls w; next_lock := next_lock w;
                   held := release l (held w);
                   events := events w ++ map (pair tid) lines |})
      end
  | Finished _ => None
  end.

Fixpoint set_nth (n : nat) (p : pc) (ps : list pc) : list pc :=
  match ps, n with
  | [], _ => []
  | _ :: ps', O => p :: ps'
  | q :: ps', S n' => q :: set_nth n' p ps'
  end.

(** Runs the threads under a schedule, a list of thread numbers; a turn
    given to a thread that cannot move is lost. *)
Fixpoint run_schedule (schedule : list nat) (ps : list pc) (w : world)
  : list pc * world :=
  match schedule with
  | [] => (ps, w)
  | tid :: schedule' =>
      match nth_error ps tid with
      | None => run_schedule schedule' ps w
      | Some p =>
          match step tid p w with
          | None => run_schedule schedule' ps w
          | Some (p', w') => run_schedule schedule' (set_nth tid p' ps) w'
          end
      end
  end.

Definition start (c : settings_class) : world :=
  {| cls := c; next_lock := 0; held := []; events := [] |}.

Definition inside_at (p : pc) : list lock :=
  match p with
  | InLoop l _ _ _ => [l]
  | _ => []
  end.

Definition built_at (p : pc) : list lock :=
  match p with
  | AtEnter l _ _ _ | InLoop l _ _ _ => [l]
  | _ => []
  end.

(** The locks of the threads that are inside the [with] block. *)
Definition inside (ps : list pc) : list lock := flat_map inside_at ps.

(** The locks built by the calls in progress. *)
Definition built (ps : list pc) : list lock := flat_map built_at ps.

(** Every call in progress has a lock of its own, and a held lock belongs
    to a thread inside the block. *)
Definition separate (ps : list pc) (w : world) : Prop :=
  NoDup (built ps)
  /\ (forall l, In l (built ps) -> l < next_lock w)
  /\ (forall h, In h (held w) -> In h (inside ps)).

End Threads.

(** ** Words of the description

    [get_missing_settings] is described as returning the directly defined
    names that do not start with an underscore, are not listed as optional
    and whose value is [None], in the order of [vars]. *)

Definition reported (c : settings_class) (optional : list value) (a : string) : bool :=
  negb (Str.startswith a "_")
  && negb (existsb (eq_str a) optional)
  && match find_attr c a with
     | Some VNone => true
     | _ => false
     end.

Definition missing_described (c : settings_class) (optional : list value) : list string :=
  filter (reported c optional) (vars c).

(** The value the loop tests the derived name against. *)
Definition no_environ_set_of (c : settings_class) : value :=
  getattr_default c "_no_environ_set" (VTuple []).

(** A matching variable of [env] derives the name [a]. *)
Definition derives (prefix a : string) (env : environ) : bool :=
  existsb (fun entry : string * string =>
             Str.startswith (fst entry) prefix
             && String.eqb (attr_of prefix (fst entry)) a) env.

(** The assignment one iteration performs when the no-environ list reads as
    [listed]: none for a key that does not match or is listed. *)
Definition assignment_of (type_hints : list (string * hint)) (prefix : string)
    (listed : value) (entry : string * string) : outcome (option (string * value)) :=
  let (k, raw) := entry in
  if negb (Str.startswith k prefix) then Ok None
  else
    match py_in (attr_of prefix k) listed with
    | Raise e => Raise e
    | Ok true => Ok None
    | Ok false =>
        match typecast type_hints (attr_of prefix k) raw with
        | Raise e => Raise e
        | Ok v =>
            match displayed (attr_of prefix k) v with
            | Raise e => Raise e
            | Ok _ =>
                match refused (attr_of prefix k) v with
                | Some e => Raise e
                | None => Ok (Some (attr_of prefix k, v))
                end
            end
        end
    end.

(** The assignments of a whole pass, up to the first exception. *)
Fixpoint assignments (type_hints : list (string * hint)) (prefix : string)
    (listed : value) (env : environ) : list (string * value) :=
  match env with
  | [] => []
  | entry :: env' =>
      match assignment_of type_hints prefix listed entry with
      | Raise _ => []
      | Ok None => assignments type_hints prefix listed env'
      | Ok (Some av) => av :: assignments type_hints prefix listed env'
      end
  end.

Definition assign_all (avs : list (string * value)) (c : settings_class) : settings_class :=
  fold_left (fun c0 av => with_attr c0 (fst av) (snd av)) avs c.

(** The value last assigned to [a] in a list of assignments. *)
Fixpoint last_assigned (a : string) (avs : list (string * value)) : option value :=
  match avs with
  | [] => None
  | (b, v) :: avs' =>
      match last_assigned a avs' with
      | Some w => Some w
      | None => if String.eqb a b then Some v else None
      end
  end.

(** ** Further settings classes and environments *)

Module Cases.

(** [class C: db_password: str = None] *)
Definition Credentials : settings_class :=
  {| own := [("db_password", VNone)];
     inherited := [];
     annotations := [("db_password", Hint.str)] |}.

(** [class C: password_ttl: int = None] *)
Definition PasswordPolicy : settings_class :=
  {| own := [("password_ttl", VNone)];
     inherited := [];
     annotations := [("password_ttl", Hint.int)] |}.

(** [class C: ports: List[int] = None] *)
Definition Ports : settings_class :=
  {| own := [("ports", VNone)];
     inherited := [];
     annotations := [("ports", Hint.typing_alias)] |}.

(** [class C: _no_environ_set = ("",)] *)
Definition EmptyNameListed : settings_class :=
  {| own := [("_no_environ_set", VTuple [VStr ""])];
     inherited := [];
     annotations := [] |}.

(** [class C: web_app_name: str = None] *)
Definition WebApp : settings_class :=
  {| own := [("web_app_name", VNone)];
     inherited := [];
     annotations := [("web_app_name", Hint.str)] |}.

Definition list_first : environ :=
  [("MYAPP__NO_ENVIRON_SET", "none"); ("MYAPP_S5", "boom")].

Definition list_last : environ :=
  [("MYAPP_S5", "boom"); ("MYAPP__NO_ENVIRON_SET", "none")].

Definition two_settings : environ :=
  [("MYAPP_S1", "32"); ("MYAPP_S2", "1")].

End Cases.

(** ** The module's [Settings] class *)

(** [class Settings], with its two example settings. *)
Definition Settings : settings_class :=
  {| own := [("_optional_settings", VTuple []);
             ("_no_environ_set", VTuple []);
             ("debug", VBool false);
             ("database_dsn", VNone)];
     inherited := [];
     annotations := [("_optional_settings", Hint.typing_alias);
                     ("_no_environ_set", Hint.typing_alias);
                     ("debug", Hint.bool);
                     ("database_dsn", Hint.str)] |}.

(** [class C: _optional_settings = ("optional_dsn"); dsn: str = None;
    port: int = None]: the parentheses without a comma make a string. *)
Definition ForgottenComma : settings_class :=
  {| own := [("_optional_settings", VStr "optional_dsn");
             ("dsn", VNone);
             ("port", VNone)];
     inherited := [];
     annotations := [("dsn", Hint.str); ("port", Hint.int)] |}.

(** ** Words for the further properties *)

(** The test of [if not k.startswith(prefix): continue], on an entry. *)
Definition matching (prefix : string) (entry : string * string) : bool :=
  Str.startswith (fst entry) prefix.

(** The values that can be sliced and searched with [in]. *)
Definition is_sequence (v : value) : bool :=
  match v with
  | VStr _ | VTuple _ => true
  | VNone | VBool _ | VInt _ => false
  end.

(** The values [__name__] and [__qualname__] accept. *)
Definition is_string (v : value) : bool :=
  match v with
  | VStr _ => true
  | _ => false
  end.

(** The names [setattr] refuses whatever the value. *)
Definition reserved (a : string) : bool :=
  among a readonly_names || among a ["__bases__"; "__class__"].

(** A matching variable of [env] derives a reserved name. *)
Definition derives_reserved (prefix : string) (env : environ) : bool :=
  existsb (fun entry : string * string =>
             matching prefix entry && reserved (attr_of prefix (fst entry))) env.

(** Type hints with which no conversion makes an iteration raise: a
    conversion either fails with a caught class or gives a value that the
    rest of the iteration can handle (sliced for the trace under a name with
    "password", searched with [in] once it is the no-environ list, accepted
    as [__name__] or [__qualname__]). *)
Definition well_behaved (type_hints : list (string * hint)) : Prop :=
  forall a h raw,
    lookup a type_hints = Some h ->
    match h raw with
    | Ok v =>
        (Str.contains "password" a = true -> is_sequence v = true)
        /\ (a = "_no_environ_set"%string -> is_sequence v = true)
        /\ (among a ["__name__"; "__qualname__"] = true -> is_string v = true)
    | Raise e => caught e = true
    end.

(** The value [get_missing_settings] tests a name against. *)
Definition optional_settings_of (c : settings_class) : value :=
  getattr_default c "_optional_settings" (VTuple []).

(** Type hints that never convert to [None]. *)
Definition never_none (type_hints : list (string * hint)) : Prop :=
  forall a h raw, lookup a type_hints = Some h -> h raw <> Ok VNone.

(** * Properties *)

Open Scope list_scope.

(** ** The class namespace *)

Section Namespace.

Lemma lookup_store_same (a : string) (v : value) (d : namespace) :
  lookup a (store a v d) = Some v.
Proof.
  induction d as [|[b x] d IH]; simpl.
  - now rewrite String.eqb_refl.
  - destruct (String.eqb a b) eqn:E; simpl; rewrite E; auto.
Qed.

Lemma lookup_store_other (a b : string) (v : value) (d : namespace) :
  a <> b -> lookup a (store b v d) = lookup a d.
Proof.
  intros Hab. apply String.eqb_neq in Hab.
  induction d as [|[k x] d IH]; simpl.
  - now rewrite Hab.
  - destruct (String.eqb b k) eqn:E; simpl.
    + apply String.eqb_eq in E. subst k. now rewrite Hab.
    + destruct (String.eqb a k); auto.
Qed.

Lemma find_attr_with_attr_same (c : settings_class) (a : string) (v : value) :
  find_attr (with_attr c a v) a = Some v.
Proof.
  unfold find_attr, with_attr; simpl. now rewrite lookup_store_same.
Qed.

Lemma find_attr_with_attr_other (c : settings_class) (a b : string) (v : value) :
  a <> b -> find_attr (with_attr c b v) a = find_attr c a.
Proof.
  intros Hab. unfold find_attr, with_attr; simpl.
  now rewrite lookup_store_other.
Qed.

Lemma lookup_of_key {A : Type} (a : string) (d : list (string * A)) :
  In a (map fst d) -> exists x, lookup a d = Some x.
Proof.
  induction d as [|[b x] d IH]; simpl; intros H; [contradiction|].
  destruct (String.eqb a b) eqn:E; [eauto|].
  apply String.eqb_neq in E.
  destruct H as [H|H]; [congruence | auto].
Qed.

Lemma find_attr_of_var (c : settings_class) (a : string) :
  In a (vars c) -> exists v, find_attr c a = Some v.
Proof.
  intros H. destruct (lookup_of_key a (own c) H) as [v Hv].
  exists v. unfold find_attr. now rewrite Hv.
Qed.

Lemma keys_store (a : string) (v : value) (d : namespace) :
  map fst (store a v d) =
  if existsb (String.eqb a) (map fst d) then map fst d else (map fst d ++ [a])%list.
Proof.
  induction d as [|[b x] d IH]; simpl; [reflexivity|].
  destruct (String.eqb a b) eqn:E; simpl; [reflexivity|].
  rewrite IH. now destruct (existsb _ _).
Qed.

End Namespace.

(** ** [get_missing_settings] against its description *)

Lemma missing_loop_filter (c : settings_class) (optional : list value) :
  getattr_default c "_optional_settings" (VTuple []) = VTuple optional ->
  forall names acc,
    incl names (vars c) ->
    missing_loop c names acc = Ok (acc ++ filter (reported c optional) names).
Proof.
  intros Hopt names.
  induction names as [|a names IH]; intros acc Hincl; simpl.
  - now rewrite app_nil_r.
  - assert (Ha : In a (vars c)) by (apply Hincl; now left).
    assert (Hrest : incl names (vars c)) by (intros x Hx; apply Hincl; now right).
    unfold reported at 1.
    destruct (Str.startswith a "_") eqn:Epriv; simpl; [now apply IH|].
    rewrite Hopt; simpl.
    destruct (existsb (eq_str a) optional) eqn:Elisted; simpl; [now apply IH|].
    destruct (find_attr_of_var c a Ha) as [v Hv].
    unfold getattr. rewrite Hv.
    destruct v; simpl; rewrite IH by assumption; try reflexivity.
    now rewrite <- app_assoc.
Qed.

(** C3. For a settings class whose optional-settings attribute is a sequence
    (or is absent, which reads as the empty one), [get_missing_settings]
    returns exactly the names defined on the class itself that do not start
    with an underscore, are not in that sequence and hold [None], in the
    order of definition; the result is empty when no such name holds [None]. *)
Theorem get_missing_settings_exact (c : settings_class) (optional : list value) :
  getattr_default c "_optional_settings" (VTuple []) = VTuple optional ->
  get_missing_settings c = Ok (missing_described c optional)
  /\ ((forall a, In a (vars c) ->
         Str.startswith a "_" = false ->
         existsb (eq_str a) optional = false ->
         find_attr c a <> Some VNone) ->
      get_missing_settings c = Ok []).
Proof.
  intros Hopt.
  assert (Hexact : get_missing_settings c = Ok (missing_described c optional)).
  { unfold get_missing_settings, missing_described.
    rewrite (missing_loop_filter c optional Hopt) by apply incl_refl.
    reflexivity. }
  split; [exact Hexact|].
  intros Hset. rewrite Hexact. f_equal.
  unfold missing_described.
  assert (Hall : forall names, incl names (vars c) ->
                               filter (reported c optional) names = []).
  { induction names as [|a names IH]; intros Hincl; simpl; [reflexivity|].
    assert (Ha : In a (vars c)) by (apply Hincl; now left).
    assert (Hno : reported c optional a = false).
    { unfold reported.
      destruct (Str.startswith a "_") eqn:E1; simpl; [reflexivity|].
      destruct (existsb (eq_str a) optional) eqn:E2; simpl; [reflexivity|].
      specialize (Hset a Ha E1 E2).
      destruct (find_attr c a) as [[]|]; try reflexivity. congruence. }
    rewrite Hno. apply IH. intros x Hx. apply Hincl. now right. }
  apply Hall, incl_refl.
Qed.

Lemma get_missing_settings_exact_witness :
  get_missing_settings Tests.MissingTestSettings
  = Ok (missing_described Tests.MissingTestSettings [VStr "optional"])
  /\ ((forall a, In a (vars Tests.MissingTestSettings) ->
         Str.startswith a "_" = false ->
         existsb (eq_str a) [VStr "optional"] = false ->
         find_attr Tests.MissingTestSettings a <> Some VNone) ->
      get_missing_settings Tests.MissingTestSettings = Ok []).
Proof.
  apply (get_missing_settings_exact Tests.MissingTestSettings [VStr "optional"]).
  reflexivity.
Defined.

(** ** Deriving the attribute name *)

Section AttrName.

Lemma prefix_append (p s : string) : String.prefix p (p ++ s)%string = true.
Proof.
  induction p as [|c p IH]; simpl.
  - now destruct s.
  - destruct (ascii_dec c c) as [_|Hne]; [exact IH | now elim Hne].
Qed.

Lemma startswith_append (p s : string) : Str.startswith (p ++ s)%string p = true.
Proof. apply prefix_append. Qed.

Lemma remove_from_skip (p u s : string) :
  Str.remove_from p (String.length u) (u ++ s)%string = Str.remove_from p 0 s.
Proof.
  induction u as [|c u IH]; simpl.
  - now destruct s.
  - exact IH.
Qed.

(** What [k.replace(prefix, "")] does to a key that starts with the prefix:
    the leading occurrence goes, and the scan goes on through the rest. *)
Lemma remove_all_leading (p s : string) :
  Str.remove_all p (p ++ s)%string = Str.remove_all p s.
Proof.
  destruct p as [|c p]; [reflexivity|].
  unfold Str.remove_all.
  change (String c p ++ s)%string with (String c (p ++ s)%string).
  cbn [Str.remove_from].
  change (String c (p ++ s)%string) with (String c p ++ s)%string.
  rewrite prefix_append.
  replace (String.length (String c p) - 1) with (String.length p)
    by (cbn [String.length]; lia).
  apply remove_from_skip.
Qed.

Lemma append_empty_r (s : string) : (s ++ "")%string = s.
Proof. induction s as [|c s IH]; simpl; [reflexivity | now rewrite IH]. Qed.

Lemma remove_all_self (p : string) : Str.remove_all p p = ""%string.
Proof.
  rewrite <- (append_empty_r p) at 2.
  rewrite remove_all_leading.
  now destruct p.
Qed.

Lemma attr_of_leading (p s : string) :
  attr_of p (p ++ s)%string = Str.lower (Str.remove_all p s).
Proof. unfold attr_of. now rewrite remove_all_leading. Qed.

Lemma attr_of_prefix_itself (p : string) : attr_of p p = ""%string.
Proof. unfold attr_of. now rewrite remove_all_self. Qed.

Lemma startswith_self (p : string) : Str.startswith p p = true.
Proof.
  rewrite <- (append_empty_r p) at 1. apply startswith_append.
Qed.

End AttrName.

(** ** One iteration of the loop *)

Section Iteration.

Variable type_hints : list (string * hint).
Variable prefix : string.
Variable c : settings_class.

Lemma setattr_accepted (a : string) (v : value) :
  refused a v = None -> setattr c a v = Ok (with_attr c a v).
Proof. intros H. unfold setattr. now rewrite H. Qed.

Lemma setattr_refused (a : string) (v : value) (e : exn) :
  refused a v = Some e -> setattr c a v = Raise e.
Proof. intros H. unfold setattr. now rewrite H. Qed.

(** No name that [setattr] refuses contains "password". *)
Lemma refused_password (a : string) (v : value) :
  Str.contains "password" a = true -> refused a v = None.
Proof.
  intros Hpw. unfold refused, among, readonly_names. cbn [existsb].
  repeat match goal with
         | |- context [String.eqb a ?n] =>
             let E := fresh "E" in
             destruct (String.eqb a n) eqn:E;
             [apply String.eqb_eq in E; subst a; discriminate Hpw|]
         end.
  reflexivity.
Qed.

Lemma bind_one_other_key (k raw : string) :
  Str.startswith k prefix = false ->
  bind_one type_hints prefix (k, raw) c = ([], Ok c).
Proof. intros H. unfold bind_one. now rewrite H. Qed.

Lemma bind_one_skipped (k raw : string) :
  Str.startswith k prefix = true ->
  py_in (attr_of prefix k) (no_environ_set_of c) = Ok true ->
  bind_one type_hints prefix (k, raw) c = ([skipping_line k], Ok c).
Proof.
  intros H1 H2. unfold bind_one, no_environ_set_of in *.
  now rewrite H1, H2.
Qed.

(** An iteration that gets as far as the trace line ends as its [setattr]
    ends. *)
Lemma bind_one_sets (k raw : string) (v : value) (shown : string) :
  Str.startswith k prefix = true ->
  py_in (attr_of prefix k) (no_environ_set_of c) = Ok false ->
  typecast type_hints (attr_of prefix k) raw = Ok v ->
  displayed (attr_of prefix k) v = Ok shown ->
  bind_one type_hints prefix (k, raw) c
  = ([found_line k (attr_of prefix k) shown], setattr c (attr_of prefix k) v).
Proof.
  intros H1 H2 H3 H4. unfold bind_one, no_environ_set_of in *.
  now rewrite H1, H2, H3, H4.
Qed.

Lemma bind_one_stores (k raw : string) (v : value) (shown : string) :
  Str.startswith k prefix = true ->
  py_in (attr_of prefix k) (no_environ_set_of c) = Ok false ->
  typecast type_hints (attr_of prefix k) raw = Ok v ->
  displayed (attr_of prefix k) v = Ok shown ->
  refused (attr_of prefix k) v = None ->
  bind_one type_hints prefix (k, raw) c
  = ([found_line k (attr_of prefix k) shown], Ok (with_attr c (attr_of prefix k) v)).
Proof.
  intros H1 H2 H3 H4 H5.
  rewrite (bind_one_sets k raw v shown) by assumption.
  now rewrite setattr_accepted.
Qed.

Lemma bind_one_raises (k raw : string) (e : exn) :
  Str.startswith k prefix = true ->
  py_in (attr_of prefix k) (no_environ_set_of c) = Ok false ->
  typecast type_hints (attr_of prefix k) raw = Raise e ->
  bind_one type_hints prefix (k, raw) c = ([], Raise e).
Proof.
  intros H1 H2 H3. unfold bind_one, no_environ_set_of in *.
  now rewrite H1, H2, H3.
Qed.

Lemma typecast_converted (attr raw : string) (h : hint) (v : value) :
  lookup attr type_hints = Some h ->
  h raw = Ok v ->
  typecast type_hints attr raw = Ok v.
Proof. intros H1 H2. unfold typecast, call_hint. now rewrite H1, H2. Qed.

Lemma typecast_fallback (attr raw : string) (e : exn) :
  call_hint (lookup attr type_hints) raw = Raise e ->
  caught e = true ->
  typecast type_hints attr raw = Ok (VStr raw).
Proof. intros H1 H2. unfold typecast. now rewrite H1, H2. Qed.

Lemma typecast_uncaught (attr raw : string) (e : exn) :
  call_hint (lookup attr type_hints) raw = Raise e ->
  caught e = false ->
  typecast type_hints attr raw = Raise e.
Proof. intros H1 H2. unfold typecast. now rewrite H1, H2. Qed.

Lemma typecast_undeclared (attr raw : string) :
  lookup attr type_hints = None ->
  typecast type_hints attr raw = Ok (VStr raw).
Proof. intros H. unfold typecast, call_hint. now rewrite H. Qed.

Lemma displayed_str (attr s : string) :
  displayed attr (VStr s)
  = Ok (if Str.contains "password" attr then ("****" ++ Str.take 4 s)%string else s).
Proof. unfold displayed. now destruct (Str.contains "password" attr). Qed.

(** A conversion that fails with a caught class: the raw string goes to
    [setattr], after its trace line. *)
Lemma bind_one_fallback (k raw : string) (e : exn) :
  Str.startswith k prefix = true ->
  py_in (attr_of prefix k) (no_environ_set_of c) = Ok false ->
  call_hint (lookup (attr_of prefix k) type_hints) raw = Raise e ->
  caught e = true ->
  bind_one type_hints prefix (k, raw) c
  = ([found_line k (attr_of prefix k)
        (if Str.contains "password" (attr_of prefix k)
         then ("****" ++ Str.take 4 raw)%string else raw)],
     setattr c (attr_of prefix k) (VStr raw)).
Proof.
  intros H1 H2 H3 H4.
  apply bind_one_sets; auto using displayed_str.
  eapply typecast_fallback; eauto.
Qed.

(** A conversion that succeeds: the converted value is stored, as long as
    the trace line for it can be formed and the name can be assigned. *)
Lemma bind_one_converted (k raw : string) (h : hint) (v : value) (shown : string) :
  Str.startswith k prefix = true ->
  py_in (attr_of prefix k) (no_environ_set_of c) = Ok false ->
  lookup (attr_of prefix k) type_hints = Some h ->
  h raw = Ok v ->
  displayed (attr_of prefix k) v = Ok shown ->
  refused (attr_of prefix k) v = None ->
  bind_one type_hints prefix (k, raw) c
  = ([found_line k (attr_of prefix k) shown], Ok (with_attr c (attr_of prefix k) v)).
Proof.
  intros H1 H2 H3 H4 H5 H6.
  apply bind_one_stores; auto.
  eapply typecast_converted; eauto.
Qed.

End Iteration.

(** The loop over two stretches of the environment: the second stretch starts
    where the first ended, unless the first raised. *)
Lemma bind_loop_app (type_hints : list (string * hint)) (prefix : string)
    (env1 env2 : environ) :
  forall c tr,
    bind_loop type_hints prefix (env1 ++ env2) c tr
    = let r := bind_loop type_hints prefix env1 c tr in
      match raised r with
      | Some _ => r
      | None => bind_loop type_hints prefix env2 (after r) (trace r)
      end.
Proof.
  induction env1 as [|entry env1 IH]; intros c tr; [reflexivity|].
  simpl. destruct (bind_one type_hints prefix entry c) as [lines [c'|e]].
  - apply IH.
  - reflexivity.
Qed.

(** What an iteration does to the class is what the call does to it when the
    iteration is the last one and the ones before it did not raise. *)
Lemma update_from_env_last (c c' : settings_class) (prefix : string)
    (env : environ) (entry : string * string) (lines : list string) :
  raised (update_from_env c prefix env) = None ->
  bind_one (annotations c) prefix entry (after (update_from_env c prefix env))
  = (lines, Ok c') ->
  update_from_env c prefix (env ++ [entry])
  = {| after := c';
       trace := trace (update_from_env c prefix env) ++ lines;
       raised := None |}.
Proof.
  unfold update_from_env. intros Hnone Hone.
  rewrite bind_loop_app. cbv zeta. rewrite Hnone.
  simpl. now rewrite Hone.
Qed.

(** The module's own tests pass on the model. *)

Example test_get_missing_settings :
  get_missing_settings Tests.MissingTestSettings = Ok ["setting1"%string].
Proof. reflexivity. Qed.

Example test_update_from_env :
  let r := update_from_env Tests.EnvTestSettings "MYAPP_" Tests.test_environ in
  raised r = None
  /\ find_attr (after r) "s1" = Some (VInt 32)
  /\ find_attr (after r) "s2" = Some (VBool true)
  /\ find_attr (after r) "s3" = Some (VStr "a test")
  /\ find_attr (after r) "s4" = Some VNone
  /\ find_attr (after r) "s5" = Some (VTuple [VInt 1; VInt 2; VInt 3]).
Proof. repeat split. Qed.

(** ** The derived name *)

(** C6. With the prefix [APP_] and the key [APP_WEB_APP_NAME], the name is
    derived with [replace], which removes the occurrence of [APP_] inside
    the suffix as well: the value goes to [web_name], and [web_app_name]
    keeps [None]. *)
Theorem inner_prefix_removed :
  let r := update_from_env Cases.WebApp "APP_" [("APP_WEB_APP_NAME", "shop")%string] in
  Str.startswith "APP_WEB_APP_NAME" "APP_" = true
  /\ Str.lower (Str.drop (String.length "APP_") "APP_WEB_APP_NAME") = "web_app_name"%string
  /\ attr_of "APP_" "APP_WEB_APP_NAME" = "web_name"%string
  /\ raised r = None
  /\ find_attr (after r) "web_app_name" = Some VNone
  /\ find_attr (after r) "web_name" = Some (VStr "shop").
Proof. repeat split. Qed.

(** C10, as the code has it. For a variable whose key is exactly the prefix,
    the derived name is the empty string.  The variable goes through the
    same test as every other one: it is skipped when the empty name is found
    in the no-environ list; otherwise, with no type declared under the empty
    name, the iteration assigns the raw value to the attribute named by the
    empty string. *)
Theorem key_equal_to_prefix
    (type_hints : list (string * hint)) (prefix raw : string) (c : settings_class) :
  Str.startswith prefix prefix = true
  /\ attr_of prefix prefix = ""%string
  /\ (py_in "" (no_environ_set_of c) = Ok true ->
      bind_one type_hints prefix (prefix, raw) c = ([skipping_line prefix], Ok c))
  /\ (py_in "" (no_environ_set_of c) = Ok false ->
      lookup "" type_hints = None ->
      bind_one type_hints prefix (prefix, raw) c
      = ([found_line prefix "" raw], Ok (with_attr c "" (VStr raw)))
      /\ find_attr (with_attr c "" (VStr raw)) "" = Some (VStr raw)).
Proof.
  split; [apply startswith_self|].
  split; [apply attr_of_prefix_itself|].
  split.
  - intros Hlisted. apply bind_one_skipped; [apply startswith_self|].
    now rewrite attr_of_prefix_itself.
  - intros Hgate Hhint.
    split; [|apply find_attr_with_attr_same].
    pose proof (bind_one_stores type_hints prefix c prefix raw (VStr raw) raw) as H.
    rewrite attr_of_prefix_itself in H.
    apply H; auto using startswith_self, typecast_undeclared.
Qed.

Lemma key_equal_to_prefix_witness :
  bind_one (annotations Cases.Ports) "MYAPP_" ("MYAPP_", "v")%string Cases.Ports
  = ([found_line "MYAPP_" "" "v"], Ok (with_attr Cases.Ports "" (VStr "v")))
  /\ find_attr (with_attr Cases.Ports "" (VStr "v")) "" = Some (VStr "v").
Proof.
  destruct (key_equal_to_prefix (annotations Cases.Ports) "MYAPP_" "v" Cases.Ports)
    as [_ [_ [_ Hassigned]]].
  apply Hassigned; reflexivity.
Defined.

(** C10 fails as stated: when the no-environ list holds the empty name, the
    variable whose key is exactly the prefix is skipped and no attribute is
    created. *)
Lemma key_equal_to_prefix_skipped :
  let r := update_from_env Cases.EmptyNameListed "MYAPP_" [("MYAPP_", "v")%string] in
  raised r = None
  /\ own (after r) = own Cases.EmptyNameListed
  /\ find_attr (after r) "" = None
  /\ trace r = [skipping_line "MYAPP_"].
Proof. repeat split. Qed.

(** ** Conversion failures *)

(** C1, as the code has it. When the conversion of a variable's raw value
    raises [TypeError], [AttributeError] or [KeyError] (which is what a name
    without a declared type, or a declared type that cannot be called on a
    string, gives), the failure stays inside the [try] and the raw string is
    what the iteration assigns: it is stored on the field when the class
    lets the name be assigned, and for a name the class refuses the
    exception of [setattr] leaves the loop.  A conversion failure of any
    other class leaves the loop. *)
Theorem failed_conversion
    (type_hints : list (string * hint)) (prefix k raw : string)
    (c : settings_class) (e : exn) :
  Str.startswith k prefix = true ->
  py_in (attr_of prefix k) (no_environ_set_of c) = Ok false ->
  call_hint (lookup (attr_of prefix k) type_hints) raw = Raise e ->
  (caught e = true ->
   refused (attr_of prefix k) (VStr raw) = None ->
   (exists lines,
      bind_one type_hints prefix (k, raw) c
      = (lines, Ok (with_attr c (attr_of prefix k) (VStr raw))))
   /\ find_attr (with_attr c (attr_of prefix k) (VStr raw)) (attr_of prefix k)
      = Some (VStr raw))
  /\ (caught e = true ->
      forall e', refused (attr_of prefix k) (VStr raw) = Some e' ->
      exists lines, bind_one type_hints prefix (k, raw) c = (lines, Raise e'))
  /\ (caught e = false ->
      bind_one type_hints prefix (k, raw) c = ([], Raise e)).
Proof.
  intros H1 H2 H3. split; [|split].
  - intros H4 Hfree. split; [|apply find_attr_with_attr_same].
    eexists. rewrite (bind_one_fallback _ _ _ _ _ e) by assumption.
    now rewrite setattr_accepted.
  - intros H4 e' Hrefused.
    eexists. rewrite (bind_one_fallback _ _ _ _ _ e) by assumption.
    now rewrite (setattr_refused _ _ _ e').
  - intros H4. apply bind_one_raises; auto.
    eapply typecast_uncaught; eauto.
Qed.

Lemma failed_conversion_witness :
  (exists lines,
     bind_one (annotations Cases.Ports) "MYAPP_" ("MYAPP_PORTS", "80,443")%string
       Cases.Ports
     = (lines, Ok (with_attr Cases.Ports (attr_of "MYAPP_" "MYAPP_PORTS") (VStr "80,443"))))
  /\ find_attr (with_attr Cases.Ports (attr_of "MYAPP_" "MYAPP_PORTS") (VStr "80,443"))
       (attr_of "MYAPP_" "MYAPP_PORTS")
     = Some (VStr "80,443").
Proof.
  destruct (failed_conversion (annotations Cases.Ports) "MYAPP_" "MYAPP_PORTS"
              "80,443" Cases.Ports TypeError eq_refl eq_refl eq_refl)
    as [Hstored _].
  apply Hstored; reflexivity.
Defined.

(** C1 fails as stated: for the class of [test_update_from_env], whose [s1]
    is declared [int], and the environment [MYAPP_S1=abc], the conversion
    [int("abc")] fails with [ValueError]; that class is not among the caught
    ones, so the exception leaves [update_from_env] and [s1] is not
    assigned. *)
Lemma int_failure_escapes :
  let r := update_from_env Tests.EnvTestSettings "MYAPP_" [("MYAPP_S1", "abc")%string] in
  Hint.int "abc" = Raise ValueError
  /\ caught ValueError = false
  /\ raised r = Some ValueError
  /\ find_attr (after r) "s1" = Some VNone.
Proof. repeat split. Qed.

(** A name in the result holds [None]. *)
Lemma missing_loop_sound (c : settings_class) (a : string) :
  forall names acc res,
    missing_loop c names acc = Ok res ->
    In a res -> In a acc \/ find_attr c a = Some VNone.
Proof.
  induction names as [|b names IH]; intros acc res Hrun Hin; simpl in Hrun.
  - injection Hrun as <-. now left.
  - destruct (Str.startswith b "_"); [eauto|].
    destruct (py_in b _) as [[|]|]; [eauto| |discriminate].
    unfold getattr in Hrun.
    destruct (find_attr c b) as [v|] eqn:Hb; [|discriminate].
    destruct (is_none v) eqn:Hv; [|eauto].
    destruct (IH _ _ Hrun Hin) as [Hacc|Hnone]; [|now right].
    apply in_app_or in Hacc. destruct Hacc as [Hacc|[<-|[]]]; [now left|].
    right. destruct v; try discriminate. exact Hb.
Qed.

(** C7, as the code has it. When a variable that reaches the conversion has
    the empty string as its value, the conversion fails with one of the
    caught classes and the class lets the derived name be assigned, the
    iteration stores the empty string on the field; and a field that holds
    the empty string is never in the result of [get_missing_settings], which
    reports [None] only. *)
Theorem empty_string_stored_not_reported
    (type_hints : list (string * hint)) (prefix k : string)
    (c : settings_class) (e : exn) :
  Str.startswith k prefix = true ->
  py_in (attr_of prefix k) (no_environ_set_of c) = Ok false ->
  call_hint (lookup (attr_of prefix k) type_hints) "" = Raise e ->
  caught e = true ->
  refused (attr_of prefix k) (VStr "") = None ->
  exists lines,
    bind_one type_hints prefix (k, ""%string) c
    = (lines, Ok (with_attr c (attr_of prefix k) (VStr "")))
    /\ find_attr (with_attr c (attr_of prefix k) (VStr "")) (attr_of prefix k)
       = Some (VStr "")
    /\ forall d names,
         find_attr d (attr_of prefix k) = Some (VStr "") ->
         get_missing_settings d = Ok names ->
         ~ In (attr_of prefix k) names.
Proof.
  intros H1 H2 H3 H4 H5.
  eexists. split; [|split].
  - rewrite (bind_one_fallback _ _ _ _ _ e) by assumption.
    now rewrite setattr_accepted.
  - apply find_attr_with_attr_same.
  - intros d names Hd Hrun Hin.
    destruct (missing_loop_sound d _ _ _ _ Hrun Hin) as [[]|Hnone].
    congruence.
Qed.

Lemma empty_string_stored_not_reported_witness :
  exists lines,
    bind_one (annotations Cases.Ports) "MYAPP_" ("MYAPP_PORTS", "")%string Cases.Ports
    = (lines, Ok (with_attr Cases.Ports (attr_of "MYAPP_" "MYAPP_PORTS") (VStr "")))
    /\ find_attr (with_attr Cases.Ports (attr_of "MYAPP_" "MYAPP_PORTS") (VStr ""))
         (attr_of "MYAPP_" "MYAPP_PORTS")
       = Some (VStr "")
    /\ forall d names,
         find_attr d (attr_of "MYAPP_" "MYAPP_PORTS") = Some (VStr "") ->
         get_missing_settings d = Ok names ->
         ~ In (attr_of "MYAPP_" "MYAPP_PORTS") names.
Proof.
  apply (empty_string_stored_not_reported
           (annotations Cases.Ports) "MYAPP_" "MYAPP_PORTS" Cases.Ports TypeError);
    reflexivity.
Defined.

(** C7 fails as stated: [ports] is required and declared [List[int]]; with
    [MYAPP_PORTS] set to the empty string the conversion fails, the empty
    string is stored, and [get_missing_settings] then reports nothing. *)
Lemma empty_string_not_missing :
  let r := update_from_env Cases.Ports "MYAPP_" [("MYAPP_PORTS", "")%string] in
  get_missing_settings Cases.Ports = Ok ["ports"%string]
  /\ raised r = None
  /\ find_attr (after r) "ports" = Some (VStr "")
  /\ get_missing_settings (after r) = Ok []
  /\ ~ (exists names, get_missing_settings (after r) = Ok names /\ In "ports"%string names).
Proof.
  repeat split.
  intros [names [Hrun Hin]]. vm_compute in Hrun.
  injection Hrun as <-. exact Hin.
Qed.

(** C8. For a class with [password_ttl: int = None] and the environment
    [MYAPP_PASSWORD_TTL=32], the conversion succeeds with the integer 32, but
    forming the trace line slices the converted value, which raises
    [TypeError] outside the [try]; the call ends there and the field keeps
    [None]. *)
Theorem converted_value_not_stored :
  let r := update_from_env Cases.PasswordPolicy "MYAPP_"
             [("MYAPP_PASSWORD_TTL", "32")%string] in
  typecast (annotations Cases.PasswordPolicy) "password_ttl" "32" = Ok (VInt 32)
  /\ displayed "password_ttl" (VInt 32) = Raise TypeError
  /\ raised r = Some TypeError
  /\ find_attr (after r) "password_ttl" = Some VNone.
Proof. repeat split. Qed.

(** ** The trace line of a password *)

(** C5, as the code has it. For a field whose name contains "password" and a
    string bound to it, the line passed to the logger shows the marker
    [****] followed by the first four characters of the value, which is the
    whole value when it has at most four characters. *)
Theorem password_shown_behind_marker
    (type_hints : list (string * hint)) (prefix k raw s : string)
    (c : settings_class) :
  Str.startswith k prefix = true ->
  py_in (attr_of prefix k) (no_environ_set_of c) = Ok false ->
  typecast type_hints (attr_of prefix k) raw = Ok (VStr s) ->
  Str.contains "password" (attr_of prefix k) = true ->
  bind_one type_hints prefix (k, raw) c
  = ([found_line k (attr_of prefix k) ("****" ++ Str.take 4 s)%string],
     Ok (with_attr c (attr_of prefix k) (VStr s)))
  /\ String.length (Str.take 4 s) = Nat.min 4 (String.length s)
  /\ (String.length s <= 4 -> Str.take 4 s = s).
Proof.
  intros H1 H2 H3 H4. split; [|split].
  - apply bind_one_stores; auto using refused_password.
    rewrite displayed_str. now rewrite H4.
  - clear. generalize 4 as n. induction s as [|ch s IH]; intros [|n]; simpl; auto.
  - clear. generalize 4 as n. induction s as [|ch s IH]; intros [|n]; simpl; intros Hle;
      try reflexivity; try lia.
    f_equal. apply IH. lia.
Qed.

Lemma password_shown_behind_marker_witness :
  bind_one (annotations Cases.Credentials) "MYAPP_"
    ("MYAPP_DB_PASSWORD", "supersecret")%string Cases.Credentials
  = ([found_line "MYAPP_DB_PASSWORD" (attr_of "MYAPP_" "MYAPP_DB_PASSWORD")
        ("****" ++ Str.take 4 "supersecret")%string],
     Ok (with_attr Cases.Credentials (attr_of "MYAPP_" "MYAPP_DB_PASSWORD")
           (VStr "supersecret")))
  /\ String.length (Str.take 4 "supersecret") = Nat.min 4 (String.length "supersecret")
  /\ (String.length "supersecret" <= 4 -> Str.take 4 "supersecret" = "supersecret"%string).
Proof.
  apply (password_shown_behind_marker (annotations Cases.Credentials)
           "MYAPP_" "MYAPP_DB_PASSWORD" "supersecret" "supersecret" Cases.Credentials);
    reflexivity.
Defined.

(** C5 fails as stated: binding [db_password] from the value ["abc"] puts
    [****abc] in the trace, which starts with the marker and contains the
    whole value. *)
Lemma short_password_in_trace :
  let r := update_from_env Cases.Credentials "MYAPP_"
             [("MYAPP_DB_PASSWORD", "abc")%string] in
  Str.contains "password" "db_password" = true
  /\ find_attr (after r) "db_password" = Some (VStr "abc")
  /\ trace r = [found_line "MYAPP_DB_PASSWORD" "db_password" "****abc"]
  /\ displayed "db_password" (VStr "abc") = Ok "****abc"%string
  /\ Str.contains "abc" "****abc" = true
  /\ (exists line, In line (trace r) /\ Str.contains "abc" line = true).
Proof.
  repeat split.
  eexists. split; [left; reflexivity | reflexivity].
Qed.

(** ** A pass that leaves the no-environ list alone

    The two lemmas that close this part hold for every environment in which
    no matching variable derives the name [_no_environ_set]. *)

Section UntouchedList.

Variable type_hints : list (string * hint).
Variable prefix : string.

Lemma no_environ_set_of_with_attr (c : settings_class) (a : string) (v : value) :
  a <> "_no_environ_set"%string ->
  no_environ_set_of (with_attr c a v) = no_environ_set_of c.
Proof.
  intros Ha. unfold no_environ_set_of, getattr_default.
  rewrite find_attr_with_attr_other; auto.
Qed.

Lemma bind_one_assignment (entry : string * string) (c : settings_class) :
  match assignment_of type_hints prefix (no_environ_set_of c) entry with
  | Raise e => exists lines, bind_one type_hints prefix entry c = (lines, Raise e)
  | Ok None => exists lines, bind_one type_hints prefix entry c = (lines, Ok c)
  | Ok (Some av) =>
      exists lines,
        bind_one type_hints prefix entry c = (lines, Ok (with_attr c (fst av) (snd av)))
  end.
Proof.
  destruct entry as [k raw]. unfold assignment_of, bind_one.
  fold (no_environ_set_of c).
  destruct (Str.startswith k prefix); simpl; [|eauto].
  destruct (py_in _ _) as [[|]|e]; [eauto| |eauto].
  destruct (typecast _ _ _) as [v|e]; [|eauto].
  destruct (displayed _ v) as [shown|e]; [|eauto].
  unfold setattr. destruct (refused _ v); simpl; eauto.
Qed.

Lemma assignment_of_name (listed : value) (entry : string * string) (av : string * value) :
  assignment_of type_hints prefix listed entry = Ok (Some av) ->
  Str.startswith (fst entry) prefix = true
  /\ fst av = attr_of prefix (fst entry)
  /\ py_in (fst av) listed = Ok false.
Proof.
  destruct entry as [k raw]. unfold assignment_of. simpl.
  destruct (Str.startswith k prefix); simpl; [|discriminate].
  destruct (py_in _ _) as [[|]|e] eqn:Hin; try discriminate.
  destruct (typecast _ _ _) as [v|e]; [|discriminate].
  destruct (displayed _ v) as [shown|e]; [|discriminate].
  destruct (refused _ v); [discriminate|].
  intros H. injection H as <-. auto.
Qed.

(** A pass is the list of its assignments, applied in order. *)
Lemma bind_loop_assignments (env : environ) :
  derives prefix "_no_environ_set" env = false ->
  forall c tr,
    after (bind_loop type_hints prefix env c tr)
    = assign_all (assignments type_hints prefix (no_environ_set_of c) env) c.
Proof.
  induction env as [|entry env IH]; intros Hder c tr; [reflexivity|].
  simpl in Hder. apply orb_false_elim in Hder as [Hentry Hrest].
  cbn [bind_loop assignments].
  pose proof (bind_one_assignment entry c) as Hone.
  destruct (assignment_of _ _ _ entry) as [[av|]|e] eqn:Has;
    destruct Hone as [lines ->].
  - destruct (assignment_of_name _ _ _ Has) as [Hstart [Hname _]].
    rewrite Hstart in Hentry. simpl in Hentry.
    apply String.eqb_neq in Hentry. rewrite <- Hname in Hentry.
    rewrite IH by assumption.
    now rewrite no_environ_set_of_with_attr.
  - now apply IH.
  - reflexivity.
Qed.

Lemma assignments_names (listed : value) (env : environ) (a : string) (v : value) :
  In (a, v) (assignments type_hints prefix listed env) ->
  derives prefix a env = true /\ py_in a listed = Ok false.
Proof.
  induction env as [|entry env IH]; simpl; [contradiction|].
  destruct (assignment_of _ _ _ entry) as [[av|]|e] eqn:Has; simpl.
  - destruct (assignment_of_name _ _ _ Has) as [Hstart [Hname Hfree]].
    intros [->|Hin].
    + simpl in Hname, Hfree. split; [|exact Hfree].
      rewrite Hstart, <- Hname, String.eqb_refl. reflexivity.
    + destruct (IH Hin) as [Hd Hf]. split; [|exact Hf].
      rewrite Hd. apply orb_true_r.
  - intros Hin. destruct (IH Hin) as [Hd Hf]. split; [|exact Hf].
    rewrite Hd. apply orb_true_r.
  - contradiction.
Qed.

Lemma find_attr_assign_all (avs : list (string * value)) (a : string) :
  forall c,
    find_attr (assign_all avs c) a
    = match last_assigned a avs with
      | Some v => Some v
      | None => find_attr c a
      end.
Proof.
  induction avs as [|[b v] avs IH]; intros c; [reflexivity|].
  unfold assign_all in *. simpl. rewrite IH.
  destruct (last_assigned a avs); [reflexivity|].
  destruct (String.eqb a b) eqn:E.
  - apply String.eqb_eq in E. subst b. apply find_attr_with_attr_same.
  - apply String.eqb_neq in E. now apply find_attr_with_attr_other.
Qed.

Lemma last_assigned_in (a : string) (avs : list (string * value)) (v : value) :
  last_assigned a avs = Some v -> In (a, v) avs.
Proof.
  induction avs as [|[b w] avs IH]; simpl; [discriminate|].
  destruct (last_assigned a avs) as [u|].
  - intros H. injection H as <-. right. now apply IH.
  - destruct (String.eqb a b) eqn:E; [|discriminate].
    apply String.eqb_eq in E. subst b.
    intros H. injection H as <-. now left.
Qed.

Lemma no_environ_set_of_after (env : environ) (c : settings_class) :
  derives prefix "_no_environ_set" env = false ->
  no_environ_set_of (after (bind_loop type_hints prefix env c []))
  = no_environ_set_of c.
Proof.
  intros Hder. rewrite bind_loop_assignments by assumption.
  unfold no_environ_set_of, getattr_default.
  rewrite find_attr_assign_all.
  destruct (last_assigned _ _) as [v|] eqn:Hlast; [|reflexivity].
  apply last_assigned_in, assignments_names in Hlast.
  destruct Hlast as [Hd _]. congruence.
Qed.

Lemma annotations_after (env : environ) :
  forall c tr, annotations (after (bind_loop type_hints prefix env c tr)) = annotations c.
Proof.
  induction env as [|entry env IH]; intros c tr; [reflexivity|].
  cbn [bind_loop].
  destruct (bind_one type_hints prefix entry c) as [lines [c'|e]] eqn:Hone;
    [|reflexivity].
  rewrite IH.
  destruct entry as [k raw]. unfold bind_one in Hone.
  destruct (negb _); [now injection Hone as _ <-|].
  destruct (py_in _ _) as [[|]|]; try discriminate; [now injection Hone as _ <-|].
  destruct (typecast _ _ _); [|discriminate].
  destruct (displayed _ _); [|discriminate].
  unfold setattr in Hone. destruct (refused _ _); [discriminate|].
  now injection Hone as _ <-.
Qed.

End UntouchedList.

(** X13. When no matching variable derives the name [_no_environ_set], a
    field found in the no-environ list keeps its value through the call,
    whatever the matching variables are. *)
Lemma listed_field_kept (c : settings_class) (prefix : string) (env : environ) (a : string) :
  derives prefix "_no_environ_set" env = false ->
  py_in a (no_environ_set_of c) = Ok true ->
  find_attr (after (update_from_env c prefix env)) a = find_attr c a.
Proof.
  intros Hder Hlisted. unfold update_from_env.
  rewrite bind_loop_assignments by assumption.
  rewrite find_attr_assign_all.
  destruct (last_assigned _ _) as [v|] eqn:Hlast; [|reflexivity].
  apply last_assigned_in, assignments_names in Hlast.
  destruct Hlast as [_ Hfree]. congruence.
Qed.

(** X14. When no matching variable derives the name [_no_environ_set], a
    second call in the same environment leaves every attribute as the first
    call left it. *)
Lemma second_call_same (c : settings_class) (prefix : string) (env : environ) (a : string) :
  derives prefix "_no_environ_set" env = false ->
  let once := update_from_env c prefix env in
  let twice := update_from_env (after once) prefix env in
  find_attr (after twice) a = find_attr (after once) a.
Proof.
  intros Hder once twice. subst once twice. unfold update_from_env.
  rewrite annotations_after.
  rewrite (bind_loop_assignments _ _ env Hder (after _)).
  rewrite no_environ_set_of_after by assumption.
  rewrite (bind_loop_assignments _ _ env Hder c).
  rewrite !find_attr_assign_all.
  now destruct (last_assigned _ _).
Qed.

(** ** A pass that assigns the no-environ list *)

(** C4. The class of [test_update_from_env] lists [s5] in
    [_no_environ_set].  With [MYAPP__NO_ENVIRON_SET] met before [MYAPP_S5],
    the first iteration replaces the list by the string ["none"], the second
    no longer finds [s5] in it, and [s5] is overwritten. *)
Theorem listed_field_overwritten :
  let r := update_from_env Tests.EnvTestSettings "MYAPP_" Cases.list_first in
  py_in "s5" (no_environ_set_of Tests.EnvTestSettings) = Ok true
  /\ find_attr Tests.EnvTestSettings "s5" = Some (VTuple [VInt 1; VInt 2; VInt 3])
  /\ raised r = None
  /\ no_environ_set_of (after r) = VStr "none"
  /\ find_attr (after r) "s5" = Some (VStr "boom").
Proof. repeat split. Qed.

(** C9. Same class, with [MYAPP_S5] met before [MYAPP__NO_ENVIRON_SET]: the
    first call skips [s5] and then replaces the list; the second call, in
    the same environment, overwrites [s5]. *)
Theorem second_call_differs :
  let once := update_from_env Tests.EnvTestSettings "MYAPP_" Cases.list_last in
  let twice := update_from_env (after once) "MYAPP_" Cases.list_last in
  raised once = None
  /\ raised twice = None
  /\ find_attr (after once) "s5" = Some (VTuple [VInt 1; VInt 2; VInt 3])
  /\ find_attr (after twice) "s5" = Some (VStr "boom").
Proof. repeat split. Qed.

(** ** No call waits for another

    Whatever the callers, the environment and the schedule, the lock a call
    is about to acquire is one that nobody holds. *)

Section FreshLocks.

Import Threads.

Lemma set_nth_split (p q : pc) (ps1 ps2 : list pc) :
  set_nth (length ps1) p (ps1 ++ q :: ps2) = ps1 ++ p :: ps2.
Proof. induction ps1 as [|r ps1 IH]; simpl; [reflexivity | now rewrite IH]. Qed.

Lemma inside_in_built (p : pc) (l : lock) : In l (inside_at p) -> In l (built_at p).
Proof. destruct p; simpl; auto. Qed.

Lemma inside_split (p : pc) (ps1 ps2 : list pc) :
  inside (ps1 ++ p :: ps2) = inside ps1 ++ inside_at p ++ inside ps2.
Proof. unfold inside. now rewrite flat_map_app. Qed.

Lemma built_split (p : pc) (ps1 ps2 : list pc) :
  built (ps1 ++ p :: ps2) = built ps1 ++ built_at p ++ built ps2.
Proof. unfold built. now rewrite flat_map_app. Qed.

Lemma inside_built (ps : list pc) (l : lock) : In l (inside ps) -> In l (built ps).
Proof.
  unfold inside, built. rewrite !in_flat_map.
  intros [p [Hp Hl]]. exists p. auto using inside_in_built.
Qed.

Lemma release_in (l h : lock) (hs : list lock) :
  In h (release l hs) <-> In h hs /\ h <> l.
Proof.
  unfold release. rewrite filter_In, negb_true_iff, Nat.eqb_neq. tauto.
Qed.

Lemma is_held_in (l : lock) (hs : list lock) : is_held l hs = true <-> In l hs.
Proof.
  unfold is_held. rewrite existsb_exists. split.
  - intros [h [Hin Heq]]. apply Nat.eqb_eq in Heq. now subst.
  - intros Hin. exists l. split; [assumption | apply Nat.eqb_refl].
Qed.

(** The lock of a call that has not entered the block yet is free. *)
Lemma lock_to_acquire_free (ps1 ps2 : list pc) (w : world) (l : lock)
    (type_hints : list (string * hint)) (prefix : string) (env : environ) :
  separate (ps1 ++ AtEnter l type_hints prefix env :: ps2) w ->
  is_held l (held w) = false.
Proof.
  intros [Hnodup [_ Hheld]].
  destruct (is_held l (held w)) eqn:E; [|reflexivity].
  apply is_held_in, Hheld in E.
  rewrite inside_split in E. simpl in E.
  rewrite built_split in Hnodup. simpl in Hnodup.
  apply NoDup_remove_2 in Hnodup. elim Hnodup.
  apply in_or_app. apply in_app_or in E.
  destruct E as [E|E]; [left|right]; now apply inside_built.
Qed.

Lemma step_separate (ps1 ps2 : list pc) (p p' : pc) (w w' : world) :
  separate (ps1 ++ p :: ps2) w ->
  step (length ps1) p w = Some (p', w') ->
  separate (ps1 ++ p' :: ps2) w'.
Proof.
  intros [Hnodup [Hbound Hheld]] Hstep.
  unfold separate. rewrite built_split in *.
  destruct p as [prefix env | l hints prefix env | l hints prefix env | e];
    simpl in Hstep.
  - (* threading.Lock() *)
    injection Hstep as <- <-. simpl in *.
    assert (Hnew : ~ In (next_lock w) (built ps1 ++ built ps2)).
    { intros Hin. apply Hbound in Hin. lia. }
    split; [|split].
    + apply NoDup_Add with (a := next_lock w) (l := built ps1 ++ built ps2);
        [apply Add_app | split; assumption].
    + intros l Hl. apply in_app_or in Hl. destruct Hl as [Hl|[<-|Hl]]; [|lia|].
      * assert (l < next_lock w) by (apply Hbound, in_or_app; now left). lia.
      * assert (l < next_lock w) by (apply Hbound, in_or_app; now right). lia.
    + intros h Hh. rewrite inside_split in *. exact (Hheld h Hh).
  - (* acquire *)
    destruct (is_held l (held w)); [discriminate|].
    injection Hstep as <- <-. simpl in *.
    split; [assumption | split; [assumption|]].
    intros h [<-|Hh].
    + rewrite inside_split. simpl. apply in_or_app. right. now left.
    + specialize (Hheld h Hh). rewrite inside_split in *. simpl in *.
      apply in_or_app. apply in_app_or in Hheld.
      destruct Hheld; [now left | right; now right].
  - (* one iteration, or the end of the block *)
    destruct env as [|entry env].
    + injection Hstep as <- <-. simpl in *.
      split; [|split].
      * now apply NoDup_remove_1 in Hnodup.
      * intros h Hh. apply Hbound. apply in_or_app. apply in_app_or in Hh.
        destruct Hh; [now left | right; now right].
      * intros h Hh. apply release_in in Hh. destruct Hh as [Hh Hne].
        specialize (Hheld h Hh). rewrite inside_split in *. simpl in *.
        apply in_or_app. apply in_app_or in Hheld.
        destruct Hheld as [Hin|[Heq|Hin]]; [now left | congruence | now right].
    + destruct (bind_one hints prefix entry (cls w)) as [lines [c'|e]].
      * injection Hstep as <- <-. simpl in *.
        split; [assumption | split; [assumption|]].
        intros h Hh. specialize (Hheld h Hh). now rewrite inside_split in *.
      * injection Hstep as <- <-. simpl in *.
        split; [|split].
        -- now apply NoDup_remove_1 in Hnodup.
        -- intros h Hh. apply Hbound. apply in_or_app. apply in_app_or in Hh.
           destruct Hh; [now left | right; now right].
        -- intros h Hh. apply release_in in Hh. destruct Hh as [Hh Hne].
           specialize (Hheld h Hh). rewrite inside_split in *. simpl in *.
           apply in_or_app. apply in_app_or in Hheld.
           destruct Hheld as [Hin|[Heq|Hin]]; [now left | congruence | now right].
  - discriminate.
Qed.

Lemma run_schedule_separate (schedule : list nat) :
  forall ps w,
    separate ps w ->
    separate (fst (run_schedule schedule ps w)) (snd (run_schedule schedule ps w)).
Proof.
  induction schedule as [|tid schedule IH]; intros ps w Hsep; [exact Hsep|].
  simpl.
  destruct (nth_error ps tid) as [p|] eqn:Hnth; [|now apply IH].
  destruct (step tid p w) as [[p' w']|] eqn:Hstep; [|now apply IH].
  apply IH.
  apply nth_error_split in Hnth. destruct Hnth as [ps1 [ps2 [-> <-]]].
  rewrite set_nth_split. eapply step_separate; eauto.
Qed.

Lemma all_at_call_separate (ps : list pc) (c : settings_class) :
  built ps = [] -> separate ps (start c).
Proof.
  intros Hb. unfold separate. rewrite Hb. simpl.
  repeat split; [constructor | contradiction | contradiction].
Qed.

(** X15. From callers that have all just been called, under any schedule: a
    thread that has built its lock finds it free and enters the block, so
    no call ever waits for another. *)
Lemma never_waits (schedule : list nat) (ps : list pc) (c : settings_class)
    (tid : nat) (l : lock) (type_hints : list (string * hint))
    (prefix : string) (env : environ) :
  built ps = [] ->
  let ps' := fst (run_schedule schedule ps (start c)) in
  let w' := snd (run_schedule schedule ps (start c)) in
  nth_error ps' tid = Some (AtEnter l type_hints prefix env) ->
  step tid (AtEnter l type_hints prefix env) w'
  = Some (InLoop l type_hints prefix env,
          {| cls := cls w'; next_lock := next_lock w';
             held := l :: held w'; events := events w' |}).
Proof.
  intros Hb ps' w' Hnth.
  pose proof (run_schedule_separate schedule ps (start c)
                (all_at_call_separate ps c Hb)) as Hsep.
  fold ps' w' in Hsep.
  apply nth_error_split in Hnth. destruct Hnth as [ps1 [ps2 [Heq _]]].
  rewrite Heq in Hsep.
  simpl. now rewrite (lock_to_acquire_free _ _ _ _ _ _ _ Hsep).
Qed.

End FreshLocks.

(** ** Two calls at once *)

(** C2. Two threads call [update_from_env] on the class of
    [test_update_from_env] with [MYAPP_S1] and [MYAPP_S2] set.  Each call
    builds its own lock, so after the turns 0, 1, 0, 1 both threads are
    inside the [with] block, holding two different locks; under the
    alternating schedule the assignments of the two calls alternate. *)
Theorem calls_not_serialized :
  let ps := [Threads.AtCall "MYAPP_" Cases.two_settings;
             Threads.AtCall "MYAPP_" Cases.two_settings] in
  let w := Threads.start Tests.EnvTestSettings in
  let mid := Threads.run_schedule [0; 1; 0; 1] ps w in
  let fin := Threads.run_schedule [0; 1; 0; 1; 0; 1; 0; 1; 0; 1] ps w in
  Threads.inside (fst mid) = [0; 1]
  /\ Threads.held (snd mid) = [1; 0]
  /\ fst fin = [Threads.Finished None; Threads.Finished None]
  /\ Threads.events (snd fin)
     = [(0, found_line "MYAPP_S1" "s1" "32");
        (1, found_line "MYAPP_S1" "s1" "32");
        (0, found_line "MYAPP_S2" "s2" "True");
        (1, found_line "MYAPP_S2" "s2" "True")].
Proof. repeat split. Qed.

(** * Further properties of [update_from_env] and [get_missing_settings] *)

(** ** What one pass can change *)

Section PassEffects.

Variable type_hints : list (string * hint).
Variable prefix : string.

Lemma bind_one_inv (k raw : string) (c c' : settings_class) (lines : list string) :
  bind_one type_hints prefix (k, raw) c = (lines, Ok c') ->
  (Str.startswith k prefix = false /\ c' = c /\ lines = [])
  \/ (Str.startswith k prefix = true
      /\ py_in (attr_of prefix k) (no_environ_set_of c) = Ok true
      /\ c' = c /\ lines = [skipping_line k])
  \/ (Str.startswith k prefix = true
      /\ py_in (attr_of prefix k) (no_environ_set_of c) = Ok false
      /\ exists v shown,
           typecast type_hints (attr_of prefix k) raw = Ok v
           /\ displayed (attr_of prefix k) v = Ok shown
           /\ c' = with_attr c (attr_of prefix k) v
           /\ lines = [found_line k (attr_of prefix k) shown]
           /\ refused (attr_of prefix k) v = None).
Proof.
  unfold bind_one. fold (no_environ_set_of c).
  destruct (Str.startswith k prefix); simpl.
  - destruct (py_in _ _) as [[|]|e]; try discriminate.
    + intros H. injection H as <- <-. right. left. auto.
    + destruct (typecast _ _ _) as [v|e] eqn:Hv; [|discriminate].
      destruct (displayed _ v) as [shown|e] eqn:Hs; [|discriminate].
      unfold setattr. destruct (refused _ v) eqn:Hr; [discriminate|].
      intros H. injection H as <- <-. right. right.
      repeat split. exists v, shown. auto.
  - intros H. injection H as <- <-. left. auto.
Qed.

Lemma typecast_inv (attr raw : string) (v : value) :
  typecast type_hints attr raw = Ok v ->
  v = VStr raw \/ exists h, lookup attr type_hints = Some h /\ h raw = Ok v.
Proof.
  unfold typecast, call_hint.
  destruct (lookup attr type_hints) as [h|].
  - destruct (h raw) as [w|e] eqn:Hh.
    + intros H. injection H as <-. right. eauto.
    + destruct (caught e); [|discriminate].
      intros H. injection H as <-. now left.
  - simpl. intros H. injection H as <-. now left.
Qed.

(** The directly defined value of a name after the loop: the one before it,
    or a value assigned for a variable that derives the name. *)
Lemma bind_loop_own (Q : string -> value -> Prop) :
  (forall a h raw v, lookup a type_hints = Some h -> h raw = Ok v -> Q a v) ->
  (forall a raw, Q a (VStr raw)) ->
  forall env c tr a,
    lookup a (own (after (bind_loop type_hints prefix env c tr))) = lookup a (own c)
    \/ (derives prefix a env = true
        /\ exists v,
             lookup a (own (after (bind_loop type_hints prefix env c tr))) = Some v
             /\ Q a v).
Proof.
  intros Qhint Qraw.
  induction env as [|[k raw] env IH]; intros c tr a; [now left|].
  cbn [bind_loop].
  destruct (bind_one type_hints prefix (k, raw) c) as [lines [c1|e]] eqn:Hone;
    [|now left].
  destruct (IH c1 (tr ++ lines) a) as [Hsame|[Hder Hval]].
  - apply bind_one_inv in Hone.
    destruct Hone as [[_ [-> _]]|[[_ [_ [-> _]]]|[Hstart [_ [v [shown [Hv [_ [-> _]]]]]]]]];
      [now left | now left |].
    destruct (String.eqb (attr_of prefix k) a) eqn:Ea.
    + apply String.eqb_eq in Ea. subst a.
      right. split.
      * cbn [derives existsb fst]. now rewrite Hstart, String.eqb_refl.
      * exists v. rewrite Hsame. cbn [with_attr own].
        split; [apply lookup_store_same|].
        destruct (typecast_inv _ _ _ Hv) as [->|[h [Hh Hr]]]; eauto.
    + left. rewrite Hsame. cbn [with_attr own].
      apply lookup_store_other. apply String.eqb_neq in Ea. congruence.
  - right. split; [|exact Hval].
    cbn [derives existsb]. unfold derives in Hder. rewrite Hder. apply orb_true_r.
Qed.

Lemma inherited_after (env : environ) :
  forall c tr, inherited (after (bind_loop type_hints prefix env c tr)) = inherited c.
Proof.
  induction env as [|[k raw] env IH]; intros c tr; [reflexivity|].
  cbn [bind_loop].
  destruct (bind_one type_hints prefix (k, raw) c) as [lines [c1|e]] eqn:Hone;
    [|reflexivity].
  rewrite IH. apply bind_one_inv in Hone.
  destruct Hone as [[_ [-> _]]|[[_ [_ [-> _]]]|[_ [_ [v [shown [_ [_ [-> _]]]]]]]]];
    reflexivity.
Qed.

Lemma bind_loop_frame (env : environ) (c : settings_class) (tr : list string) (a : string) :
  derives prefix a env = false ->
  find_attr (after (bind_loop type_hints prefix env c tr)) a = find_attr c a.
Proof.
  intros Hder. unfold find_attr. rewrite inherited_after.
  destruct (bind_loop_own (fun _ _ => True) (fun _ _ _ _ _ _ => I) (fun _ _ => I) env c tr a)
    as [->|[Hyes _]]; [reflexivity | congruence].
Qed.

End PassEffects.

Lemma lower_ascii_twice (ch : ascii) :
  Str.lower_ascii (Str.lower_ascii ch) = Str.lower_ascii ch.
Proof. destruct ch as [[] [] [] [] [] [] [] []]; reflexivity. Qed.

Lemma lower_twice (s : string) : Str.lower (Str.lower s) = Str.lower s.
Proof.
  induction s as [|ch s IH]; simpl; [reflexivity|].
  now rewrite lower_ascii_twice, IH.
Qed.

Lemma derives_lower (prefix a : string) (env : environ) :
  derives prefix a env = true -> Str.lower a = a.
Proof.
  unfold derives. rewrite existsb_exists.
  intros [[k raw] [_ H]]. apply andb_true_iff in H as [_ H].
  apply String.eqb_eq in H. subst a. apply lower_twice.
Qed.

(** X1. An attribute whose name no matching variable derives has the same
    value after the call as before it, whatever else the pass does and
    whether or not an exception ends it. *)
Theorem underived_name_kept (c : settings_class) (prefix : string) (env : environ)
    (a : string) :
  derives prefix a env = false ->
  find_attr (after (update_from_env c prefix env)) a = find_attr c a.
Proof. intros H. unfold update_from_env. now apply bind_loop_frame. Qed.

Lemma underived_name_kept_witness :
  find_attr (after (update_from_env Tests.EnvTestSettings "MYAPP_" Tests.test_environ)) "s4"
  = find_attr Tests.EnvTestSettings "s4".
Proof.
  apply (underived_name_kept Tests.EnvTestSettings "MYAPP_" Tests.test_environ "s4").
  reflexivity.
Defined.

(** X2. Derived names are lower-cased, so an attribute whose name changes
    under [lower()] (it has an upper-case letter) is never assigned: it
    keeps its value for every prefix and every environment. *)
Theorem upper_case_name_never_assigned (c : settings_class) (prefix : string)
    (env : environ) (a : string) :
  Str.lower a <> a ->
  find_attr (after (update_from_env c prefix env)) a = find_attr c a.
Proof.
  intros Hlow. unfold update_from_env. apply bind_loop_frame.
  destruct (derives prefix a env) eqn:Hder; [|reflexivity].
  elim Hlow. eapply derives_lower; eauto.
Qed.

Lemma upper_case_name_never_assigned_witness :
  find_attr (after (update_from_env Settings "MYAPP_" [("MYAPP_DEBUG", "1")%string])) "DEBUG"
  = find_attr Settings "DEBUG".
Proof.
  apply (upper_case_name_never_assigned Settings "MYAPP_"
           [("MYAPP_DEBUG", "1")%string] "DEBUG").
  discriminate.
Defined.

(** X3. In a pass over two stretches of the environment, a name that no
    matching variable of the second stretch derives ends with the value it
    had after the first stretch: the last variable that derives a name
    decides its value. *)
Theorem later_variables_leave_value (c : settings_class) (prefix : string)
    (env1 env2 : environ) (a : string) :
  derives prefix a env2 = false ->
  find_attr (after (update_from_env c prefix (env1 ++ env2))) a
  = find_attr (after (update_from_env c prefix env1)) a.
Proof.
  intros Hder. unfold update_from_env.
  rewrite bind_loop_app. cbv zeta.
  destruct (raised (bind_loop (annotations c) prefix env1 c [])); [reflexivity|].
  now apply bind_loop_frame.
Qed.

Lemma later_variables_leave_value_witness :
  find_attr (after (update_from_env Tests.EnvTestSettings "MYAPP_"
                      ([("MYAPP_S1", "32"); ("MYAPP_s1", "7")] ++ [("MYAPP_S2", "1")])))
    "s1"
  = find_attr (after (update_from_env Tests.EnvTestSettings "MYAPP_"
                        [("MYAPP_S1", "32"); ("MYAPP_s1", "7")]))
      "s1".
Proof.
  apply (later_variables_leave_value Tests.EnvTestSettings "MYAPP_"
           [("MYAPP_S1", "32"); ("MYAPP_s1", "7")]
           [("MYAPP_S2", "1")] "s1").
  reflexivity.
Defined.

(** ** The variables a pass looks at *)

Lemma bind_loop_matching (type_hints : list (string * hint)) (prefix : string)
    (env : environ) :
  forall c tr,
    bind_loop type_hints prefix env c tr
    = bind_loop type_hints prefix (filter (matching prefix) env) c tr.
Proof.
  induction env as [|[k raw] env IH]; intros c tr; [reflexivity|].
  cbn [filter]. change (matching prefix (k, raw)) with (Str.startswith k prefix).
  destruct (Str.startswith k prefix) eqn:Hstart.
  - cbn [bind_loop].
    destruct (bind_one type_hints prefix (k, raw) c) as [lines [c1|e]];
      [apply IH | reflexivity].
  - cbn [bind_loop]. rewrite bind_one_other_key by assumption.
    rewrite app_nil_r. apply IH.
Qed.

(** X4. Variables whose key does not start with the prefix play no part: the
    call leaves the same class, the same trace and the same exception as in
    the environment without them. *)
Theorem other_variables_ignored (c : settings_class) (prefix : string) (env : environ) :
  update_from_env c prefix env
  = update_from_env c prefix (filter (matching prefix) env).
Proof. unfold update_from_env. apply bind_loop_matching. Qed.

(** X5. Once an exception has left the loop nothing more is bound: if the
    pass over an environment raises, the pass over that environment followed
    by any further variables ends in the same class, trace and exception.
    The assignments made before the exception stay. *)
Theorem exception_ends_pass (c : settings_class) (prefix : string)
    (env1 env2 : environ) (e : exn) :
  raised (update_from_env c prefix env1) = Some e ->
  update_from_env c prefix (env1 ++ env2) = update_from_env c prefix env1.
Proof.
  unfold update_from_env. intros Hraised.
  rewrite bind_loop_app. cbv zeta. now rewrite Hraised.
Qed.

Lemma exception_ends_pass_witness :
  update_from_env Tests.EnvTestSettings "MYAPP_"
    ([("MYAPP_S2", "1"); ("MYAPP_S1", "abc")] ++ [("MYAPP_S3", "late")])
  = update_from_env Tests.EnvTestSettings "MYAPP_"
      [("MYAPP_S2", "1"); ("MYAPP_S1", "abc")].
Proof.
  apply (exception_ends_pass Tests.EnvTestSettings "MYAPP_"
           [("MYAPP_S2", "1"); ("MYAPP_S1", "abc")] [("MYAPP_S3", "late")] ValueError).
  reflexivity.
Defined.

Lemma bind_loop_trace_length (type_hints : list (string * hint)) (prefix : string)
    (env : environ) :
  forall c tr,
    raised (bind_loop type_hints prefix env c tr) = None ->
    length (trace (bind_loop type_hints prefix env c tr))
    = length tr + length (filter (matching prefix) env).
Proof.
  induction env as [|[k raw] env IH]; intros c tr Hnone; cbn [bind_loop filter] in *.
  - simpl. lia.
  - destruct (bind_one type_hints prefix (k, raw) c) as [lines [c1|e]] eqn:Hone;
      [|discriminate].
    rewrite IH by assumption. rewrite length_app.
    apply bind_one_inv in Hone.
    change (matching prefix (k, raw)) with (Str.startswith k prefix).
    destruct Hone as [[-> [_ ->]]|[[-> [_ [_ ->]]]|[-> [_ [v [shown [_ [_ [_ [-> _]]]]]]]]]];
      simpl; lia.
Qed.

(** X6. A call that returns normally has passed exactly one line to the
    logger for each variable whose key starts with the prefix, skipped ones
    included, and none for the others. *)
Theorem one_line_per_matching_variable (c : settings_class) (prefix : string)
    (env : environ) :
  raised (update_from_env c prefix env) = None ->
  length (trace (update_from_env c prefix env))
  = length (filter (matching prefix) env).
Proof.
  unfold update_from_env. intros Hnone.
  now rewrite bind_loop_trace_length.
Qed.

Lemma one_line_per_matching_variable_witness :
  length (trace (update_from_env Tests.EnvTestSettings "MYAPP_"
                   (("PATH", "/bin") :: Tests.test_environ)))
  = length (filter (matching "MYAPP_") (("PATH", "/bin") :: Tests.test_environ)).
Proof.
  apply (one_line_per_matching_variable Tests.EnvTestSettings "MYAPP_"
           (("PATH", "/bin") :: Tests.test_environ)).
  reflexivity.
Defined.

(** ** The namespace after a pass *)

Lemma store_keys (a : string) (v : value) (d : namespace) :
  exists added,
    map fst (store a v d) = map fst d ++ added
    /\ forall b, In b added -> b = a.
Proof.
  rewrite keys_store. destruct (existsb _ _).
  - exists []. split; [now rewrite app_nil_r | contradiction].
  - exists [a]. split; [reflexivity|]. intros b [<-|[]]. reflexivity.
Qed.

Lemma bind_loop_vars (type_hints : list (string * hint)) (prefix : string)
    (env : environ) :
  forall c tr,
    exists added,
      vars (after (bind_loop type_hints prefix env c tr)) = vars c ++ added
      /\ forall a, In a added -> derives prefix a env = true.
Proof.
  induction env as [|[k raw] env IH]; intros c tr; cbn [bind_loop].
  - exists []. split; [now rewrite app_nil_r | contradiction].
  - destruct (bind_one type_hints prefix (k, raw) c) as [lines [c1|e]] eqn:Hone.
    + destruct (IH c1 (tr ++ lines)) as [added [Hvars Hadded]].
      assert (Hlater : forall a, In a added -> derives prefix a ((k, raw) :: env) = true).
      { intros a Ha. cbn [derives existsb]. specialize (Hadded a Ha).
        unfold derives in Hadded. rewrite Hadded. apply orb_true_r. }
      apply bind_one_inv in Hone.
      destruct Hone as [[_ [-> _]]|[[_ [_ [-> _]]]|[Hstart [_ [v [shown [_ [_ [-> _]]]]]]]]];
        [eauto | eauto |].
      unfold vars in *. cbn [with_attr own] in Hvars.
      destruct (store_keys (attr_of prefix k) v (own c)) as [first [Hfirst Hname]].
      exists (first ++ added). split.
      * rewrite Hvars, Hfirst. now rewrite app_assoc.
      * intros a Ha. apply in_app_or in Ha. destruct Ha as [Ha|Ha]; [|auto].
        apply Hname in Ha. subst a.
        cbn [derives existsb fst]. now rewrite Hstart, String.eqb_refl.
    + exists []. split; [now rewrite app_nil_r | contradiction].
Qed.

(** X7. A call never removes or reorders what the class defines: the names
    defined before the call are still there in the same order, the names it
    adds come after them and are names derived from matching variables; the
    inherited attributes are left alone. *)
Theorem names_only_appended (c : settings_class) (prefix : string) (env : environ) :
  (exists added,
     vars (after (update_from_env c prefix env)) = vars c ++ added
     /\ forall a, In a added -> derives prefix a env = true)
  /\ inherited (after (update_from_env c prefix env)) = inherited c.
Proof.
  unfold update_from_env. split; [apply bind_loop_vars | apply inherited_after].
Qed.

(** ** The derived name of an ordinary key *)

Lemma remove_from_absent (p s : string) :
  Str.contains p s = false -> Str.remove_from p 0 s = s.
Proof.
  induction s as [|ch s IH]; [reflexivity|].
  cbn [Str.contains Str.remove_from]. intros H.
  apply orb_false_elim in H as [Hhere Hlater].
  rewrite Hhere. now rewrite IH.
Qed.

(** X8. For a key made of the prefix and a suffix in which the prefix does
    not occur again, the derived name is the lower-cased suffix. *)
Theorem attr_of_plain_suffix (prefix suffix : string) :
  Str.contains prefix suffix = false ->
  Str.startswith (prefix ++ suffix)%string prefix = true
  /\ attr_of prefix (prefix ++ suffix)%string = Str.lower suffix.
Proof.
  intros Habsent. split; [apply startswith_append|].
  rewrite attr_of_leading. f_equal.
  destruct prefix as [|ch p]; [reflexivity|].
  unfold Str.remove_all. now apply remove_from_absent.
Qed.

Lemma attr_of_plain_suffix_witness :
  Str.startswith ("MYAPP_" ++ "DATABASE_DSN")%string "MYAPP_" = true
  /\ attr_of "MYAPP_" ("MYAPP_" ++ "DATABASE_DSN")%string = Str.lower "DATABASE_DSN".
Proof.
  apply (attr_of_plain_suffix "MYAPP_" "DATABASE_DSN"). reflexivity.
Defined.

(** ** Calls that cannot raise *)

Section NoException.

Variable type_hints : list (string * hint).
Variable prefix : string.
Hypothesis Hhints : well_behaved type_hints.

Lemma py_in_sequence (a : string) (v : value) :
  is_sequence v = true -> exists b, py_in a v = Ok b.
Proof. destruct v; simpl; try discriminate; eauto. Qed.

Lemma slice4_sequence (v : value) :
  is_sequence v = true -> exists head, slice4 v = Ok head.
Proof. destruct v; simpl; try discriminate; eauto. Qed.

Lemma typecast_well_behaved (a raw : string) :
  exists v,
    typecast type_hints a raw = Ok v
    /\ (Str.contains "password" a = true -> is_sequence v = true)
    /\ (a = "_no_environ_set"%string -> is_sequence v = true)
    /\ (among a ["__name__"; "__qualname__"]%string = true -> is_string v = true).
Proof.
  unfold typecast, call_hint.
  destruct (lookup a type_hints) as [h|] eqn:Hh.
  - specialize (Hhints a h raw Hh).
    destruct (h raw) as [v|e]; [eauto|].
    rewrite Hhints. exists (VStr raw). auto.
  - exists (VStr raw). auto.
Qed.

Lemma refused_none (a : string) (v : value) :
  reserved a = false ->
  (among a ["__name__"; "__qualname__"]%string = true -> is_string v = true) ->
  refused a v = None.
Proof.
  unfold reserved, refused. intros Hres Hname.
  apply orb_false_elim in Hres as [-> ->].
  destruct (among a ["__name__"; "__qualname__"]%string); [|reflexivity].
  specialize (Hname eq_refl). now destruct v.
Qed.

Lemma bind_one_returns (entry : string * string) (c : settings_class) :
  is_sequence (no_environ_set_of c) = true ->
  matching prefix entry && reserved (attr_of prefix (fst entry)) = false ->
  exists c1 lines,
    bind_one type_hints prefix entry c = (lines, Ok c1)
    /\ is_sequence (no_environ_set_of c1) = true.
Proof.
  intros Hseq Hname. destruct entry as [k raw]. unfold bind_one.
  fold (no_environ_set_of c).
  unfold matching in Hname. cbn [fst] in Hname.
  destruct (Str.startswith k prefix); cbn [negb andb] in *; [|eauto].
  destruct (py_in_sequence (attr_of prefix k) _ Hseq) as [[|] ->]; [eauto|].
  destruct (typecast_well_behaved (attr_of prefix k) raw)
    as [v [-> [Hpw [Hlist Hstr]]]].
  assert (Hshown : exists shown, displayed (attr_of prefix k) v = Ok shown).
  { unfold displayed. destruct (Str.contains "password" (attr_of prefix k)); [|eauto].
    destruct (slice4_sequence v (Hpw eq_refl)) as [head ->]. eauto. }
  destruct Hshown as [shown ->].
  unfold setattr. rewrite (refused_none _ v Hname Hstr).
  do 2 eexists. split; [reflexivity|].
  destruct (String.eqb (attr_of prefix k) "_no_environ_set") eqn:E.
  - apply String.eqb_eq in E.
    unfold no_environ_set_of, getattr_default.
    rewrite E, find_attr_with_attr_same. auto.
  - apply String.eqb_neq in E.
    now rewrite no_environ_set_of_with_attr.
Qed.

Lemma bind_loop_returns (env : environ) :
  derives_reserved prefix env = false ->
  forall c tr,
    is_sequence (no_environ_set_of c) = true ->
    raised (bind_loop type_hints prefix env c tr) = None.
Proof.
  induction env as [|entry env IH]; intros Hres c tr Hseq; [reflexivity|].
  cbn [derives_reserved existsb] in Hres.
  apply orb_false_elim in Hres as [Hentry Hrest].
  cbn [bind_loop].
  destruct (bind_one_returns entry c Hseq Hentry) as [c1 [lines [-> Hseq1]]].
  now apply IH.
Qed.

End NoException.


Lemma credentials_well_behaved : well_behaved (annotations Cases.Credentials).
Proof.
  intros a h raw Hh. cbn in Hh.
  destruct (String.eqb a "db_password"); [|discriminate].
  injection Hh as <-. cbn. auto.
Qed.


(** What the third condition is for: a variable that derives a reserved
    name and gets as far as the [setattr] makes it raise. *)
Lemma reserved_refused (a : string) (v : value) :
  reserved a = true -> exists e, refused a v = Some e.
Proof.
  unfold reserved, refused. intros H.
  destruct (among a readonly_names); [eauto|].
  cbn [orb] in H. rewrite H. eauto.
Qed.

(** ** Errors of [get_missing_settings] *)

Section MissingErrors.

Variable c : settings_class.

Lemma missing_loop_all_private (names : list string) :
  forall acc,
    (forall a, In a names -> Str.startswith a "_" = true) ->
    missing_loop c names acc = Ok acc.
Proof.
  induction names as [|a names IH]; intros acc Hpriv; [reflexivity|].
  cbn [missing_loop]. rewrite (Hpriv a) by now left.
  apply IH. intros b Hb. apply Hpriv. now right.
Qed.

Lemma missing_loop_type_error (names : list string) :
  is_sequence (optional_settings_of c) = false ->
  forall acc,
    (exists a, In a names /\ Str.startswith a "_" = false) ->
    missing_loop c names acc = Raise TypeError.
Proof.
  intros Hnot. induction names as [|b names IH]; intros acc [a [Hin Hpub]];
    [contradiction|].
  cbn [missing_loop].
  destruct (Str.startswith b "_") eqn:Hb.
  - apply IH. exists a. split; [|exact Hpub].
    destruct Hin as [->|Hin]; [congruence | exact Hin].
  - fold (optional_settings_of c).
    destruct (optional_settings_of c); simpl in *; try discriminate; reflexivity.
Qed.

Lemma missing_loop_returns (names : list string) :
  is_sequence (optional_settings_of c) = true ->
  incl names (vars c) ->
  forall acc, exists res, missing_loop c names acc = Ok res.
Proof.
  intros Hseq. induction names as [|a names IH]; intros Hincl acc; [simpl; eauto|].
  assert (Hrest : incl names (vars c)) by (intros x Hx; apply Hincl; now right).
  cbn [missing_loop].
  destruct (Str.startswith a "_"); [now apply IH|].
  fold (optional_settings_of c).
  destruct (py_in_sequence a _ Hseq) as [[|] ->]; [now apply IH|].
  destruct (find_attr_of_var c a) as [v Hv]; [apply Hincl; now left|].
  unfold getattr. rewrite Hv.
  destruct (is_none v); now apply IH.
Qed.

End MissingErrors.

(** X10. [get_missing_settings] returns a list whenever [_optional_settings]
    is a sequence or a string (or absent).  When it is [None], a boolean or
    an integer, the call raises [TypeError] as soon as the class defines a
    name that does not start with an underscore, and returns the empty list
    when it defines none.  No other exception arises: the [getattr] of a
    name taken from [vars] always succeeds. *)
Theorem get_missing_settings_errors (c : settings_class) :
  (is_sequence (optional_settings_of c) = true ->
   exists names, get_missing_settings c = Ok names)
  /\ (is_sequence (optional_settings_of c) = false ->
      (exists a, In a (vars c) /\ Str.startswith a "_" = false) ->
      get_missing_settings c = Raise TypeError)
  /\ (is_sequence (optional_settings_of c) = false ->
      (forall a, In a (vars c) -> Str.startswith a "_" = true) ->
      get_missing_settings c = Ok []).
Proof.
  unfold get_missing_settings. repeat split.
  - intros Hseq. apply missing_loop_returns; [assumption | apply incl_refl].
  - intros Hnot Hpub. now apply missing_loop_type_error.
  - intros _ Hpriv. now apply missing_loop_all_private.
Qed.

(** ** The module's [Settings] class *)

Lemma settings_well_behaved : well_behaved (annotations Settings).
Proof.
  intros a h raw Hh. cbn in Hh.
  destruct (String.eqb a "_optional_settings"); [injection Hh as <-; reflexivity|].
  destruct (String.eqb a "_no_environ_set") eqn:Elist;
    [injection Hh as <-; reflexivity|].
  apply String.eqb_neq in Elist.
  destruct (String.eqb a "debug") eqn:Edebug.
  - apply String.eqb_eq in Edebug. subst a. injection Hh as <-. cbn.
    repeat split; intros H; discriminate H.
  - destruct (String.eqb a "database_dsn"); [|discriminate].
    injection Hh as <-. cbn. auto.
Qed.



(** ** Binding, then validating *)

Lemma missing_loop_member (c : settings_class) :
  forall names acc res,
    missing_loop c names acc = Ok res ->
    forall a,
      In a res <->
      In a acc
      \/ (In a names
          /\ Str.startswith a "_" = false
          /\ py_in a (optional_settings_of c) = Ok false
          /\ find_attr c a = Some VNone).
Proof.
  induction names as [|b names IH]; intros acc res Hrun a; cbn [missing_loop] in Hrun.
  - injection Hrun as <-. split; [now left | intros [H|[[] _]]; exact H].
  - fold (optional_settings_of c) in Hrun.
    destruct (Str.startswith b "_") eqn:Eb.
    { rewrite (IH _ _ Hrun a). split.
      - intros [H|[H1 H2]]; [now left | right; split; [now right | exact H2]].
      - intros [H|[[->|H1] [H2 H3]]]; [now left | congruence | right; auto]. }
    destruct (py_in b (optional_settings_of c)) as [[|]|e] eqn:Ein; [| |discriminate].
    { rewrite (IH _ _ Hrun a). split.
      - intros [H|[H1 H2]]; [now left | right; split; [now right | exact H2]].
      - intros [H|[[->|H1] [H2 [H3 H4]]]]; [now left | congruence | right; auto]. }
    unfold getattr in Hrun.
    destruct (find_attr c b) as [v|] eqn:Hb; [|discriminate].
    destruct (is_none v) eqn:Hv.
    + assert (v = VNone) by (destruct v; try discriminate; reflexivity). subst v.
      rewrite (IH _ _ Hrun a). split.
      * intros [H|[H1 H2]].
        -- apply in_app_or in H. destruct H as [H|[<-|[]]]; [now left|].
           right. repeat split; auto. now left.
        -- right. split; [now right | exact H2].
      * intros [H|[[->|H1] H2]].
        -- left. apply in_or_app. now left.
        -- left. apply in_or_app. right. now left.
        -- right. auto.
    + rewrite (IH _ _ Hrun a). split.
      * intros [H|[H1 H2]]; [now left | right; split; [now right | exact H2]].
      * intros [H|[[->|H1] [H2 [H3 H4]]]]; [now left | | right; auto].
        rewrite Hb in H4. injection H4 as ->. discriminate.
Qed.

Lemma lookup_some_key {A : Type} (a : string) (d : list (string * A)) (x : A) :
  lookup a d = Some x -> In a (map fst d).
Proof.
  induction d as [|[b y] d IH]; simpl; [discriminate|].
  destruct (String.eqb a b) eqn:E.
  - apply String.eqb_eq in E. now left.
  - intros H. right. now apply IH.
Qed.

(** X12. When no declared type converts to [None] and no matching variable
    derives the name [_optional_settings], binding can only shorten the list
    of missing settings: every name [get_missing_settings] reports after the
    call was already reported before it. *)
Theorem binding_reports_nothing_new (c : settings_class) (prefix : string)
    (env : environ) (before afterwards : list string) :
  never_none (annotations c) ->
  derives prefix "_optional_settings" env = false ->
  get_missing_settings c = Ok before ->
  get_missing_settings (after (update_from_env c prefix env)) = Ok afterwards ->
  incl afterwards before.
Proof.
  intros Hnone Hopt Hbefore Hafter a Ha.
  unfold get_missing_settings in *.
  apply (missing_loop_member _ _ _ _ Hafter) in Ha.
  destruct Ha as [[]|[Hvar [Hpub [Hlisted Hval]]]].
  apply (missing_loop_member _ _ _ _ Hbefore). right.
  unfold update_from_env in *.
  set (c' := after (bind_loop (annotations c) prefix env c [])) in *.
  assert (Hsame_opt : optional_settings_of c' = optional_settings_of c).
  { unfold optional_settings_of, getattr_default, c'.
    now rewrite bind_loop_frame. }
  rewrite Hsame_opt in Hlisted.
  destruct (lookup_of_key a (own c') Hvar) as [v Hown].
  assert (v = VNone).
  { unfold find_attr in Hval. rewrite Hown in Hval. congruence. }
  subst v.
  destruct (bind_loop_own (annotations c) prefix (fun _ v => v <> VNone))
    with (env := env) (c := c) (tr := @nil string) (a := a) as [Hkept|[_ [v [Hv Hne]]]].
  - intros b h raw v Hh Hr ->. exact (Hnone b h raw Hh Hr).
  - discriminate.
  - fold c' in Hkept. rewrite Hown in Hkept. symmetry in Hkept.
    repeat split; auto.
    + unfold vars. eapply lookup_some_key; eauto.
    + unfold find_attr. now rewrite Hkept.
  - fold c' in Hv. rewrite Hown in Hv. congruence.
Qed.

Lemma test_settings_never_none : never_none (annotations Tests.EnvTestSettings).
Proof.
  intros a h raw Hh. cbn in Hh.
  repeat match type of Hh with
         | (if ?b then _ else _) = _ => destruct b; [injection Hh as <-|]
         end; try discriminate.
  unfold Hint.int. destruct (Hint.signed _); discriminate.
Qed.

Lemma binding_reports_nothing_new_witness :
  incl ["s4"%string] ["s1"; "s2"; "s3"; "s4"]%string.
Proof.
  apply (binding_reports_nothing_new Tests.EnvTestSettings "MYAPP_" Tests.test_environ
           ["s1"; "s2"; "s3"; "s4"]%string ["s4"%string]).
  - exact test_settings_never_none.
  - reflexivity.
  - reflexivity.
  - reflexivity.
Defined.

(** ** Witnesses for the lemmas on the no-environ list and on the lock *)

Lemma listed_field_kept_witness :
  find_attr (after (update_from_env Tests.EnvTestSettings "MYAPP_" Tests.test_environ)) "s5"
  = find_attr Tests.EnvTestSettings "s5".
Proof.
  apply (listed_field_kept Tests.EnvTestSettings "MYAPP_" Tests.test_environ "s5");
    reflexivity.
Defined.

Lemma second_call_same_witness :
  let once := update_from_env Tests.EnvTestSettings "MYAPP_" Tests.test_environ in
  let twice := update_from_env (after once) "MYAPP_" Tests.test_environ in
  find_attr (after twice) "s1" = find_attr (after once) "s1".
Proof.
  apply (second_call_same Tests.EnvTestSettings "MYAPP_" Tests.test_environ "s1").
  reflexivity.
Defined.

Lemma never_waits_witness :
  let ps := [Threads.AtCall "MYAPP_" Cases.two_settings;
             Threads.AtCall "MYAPP_" Cases.two_settings] in
  let ps' := fst (Threads.run_schedule [0; 1; 0] ps (Threads.start Tests.EnvTestSettings)) in
  let w' := snd (Threads.run_schedule [0; 1; 0] ps (Threads.start Tests.EnvTestSettings)) in
  Threads.step 1
    (Threads.AtEnter 1 (annotations Tests.EnvTestSettings) "MYAPP_" Cases.two_settings) w'
  = Some (Threads.InLoop 1 (annotations Tests.EnvTestSettings) "MYAPP_" Cases.two_settings,
          {| Threads.cls := Threads.cls w'; Threads.next_lock := Threads.next_lock w';
             Threads.held := 1 :: Threads.held w'; Threads.events := Threads.events w' |}).
Proof.
  apply (never_waits [0; 1; 0]
           [Threads.AtCall "MYAPP_" Cases.two_settings;
            Threads.AtCall "MYAPP_" Cases.two_settings]
           Tests.EnvTestSettings 1 1 (annotations Tests.EnvTestSettings) "MYAPP_"
           Cases.two_settings);
    reflexivity.
Defined.

(** ** The locks at the end *)

Section LocksReleased.

Import Threads.

Lemma inside_finished (ps : list pc) :
  (forall p, In p ps -> exists e, p = Finished e) -> inside ps = [].
Proof.
  induction ps as [|p ps IH]; intros Hall; [reflexivity|].
  unfold inside in *. cbn [flat_map].
  destruct (Hall p (or_introl eq_refl)) as [e ->]. simpl.
  apply IH. intros q Hq. apply Hall. now right.
Qed.

(** X16. The [with] block gives its lock back on every way out: once every
    caller has returned, with or without an exception, no lock is held. *)
Theorem locks_released (schedule : list nat) (ps : list pc) (c : settings_class) :
  built ps = [] ->
  (forall p, In p (fst (run_schedule schedule ps (start c))) -> exists e, p = Finished e) ->
  held (snd (run_schedule schedule ps (start c))) = [].
Proof.
  intros Hb Hdone.
  pose proof (run_schedule_separate schedule ps (start c)
                (all_at_call_separate ps c Hb)) as [_ [_ Hheld]].
  rewrite (inside_finished _ Hdone) in Hheld.
  destruct (held _) as [|h hs]; [reflexivity|].
  elim (Hheld h). now left.
Qed.

End LocksReleased.

Lemma locks_released_witness :
  Threads.held
    (snd (Threads.run_schedule [0; 1; 0; 1; 0; 1]
            [Threads.AtCall "MYAPP_" [("MYAPP_S1", "abc"); ("MYAPP_S2", "1")];
             Threads.AtCall "MYAPP_" [("MYAPP_S1", "abc"); ("MYAPP_S2", "1")]]
            (Threads.start Tests.EnvTestSettings)))
  = [].
Proof.
  apply (locks_released [0; 1; 0; 1; 0; 1]
           [Threads.AtCall "MYAPP_" [("MYAPP_S1", "abc"); ("MYAPP_S2", "1")];
            Threads.AtCall "MYAPP_" [("MYAPP_S1", "abc"); ("MYAPP_S2", "1")]]
           Tests.EnvTestSettings).
  - reflexivity.
  - intros p Hp. vm_compute in Hp.
    destruct Hp as [<-|[<-|[]]]; eexists; reflexivity.
Defined.

(** ** Edge cases of the loop *)

(** X17. Under a name that contains "password", a conversion that succeeds
    with [None], a boolean or an integer makes the iteration raise
    [TypeError] while the trace line is formed, before anything is
    assigned. *)
Theorem password_name_needs_sequence
    (type_hints : list (string * hint)) (prefix k raw : string)
    (c : settings_class) (h : hint) (v : value) :
  Str.startswith k prefix = true ->
  py_in (attr_of prefix k) (no_environ_set_of c) = Ok false ->
  lookup (attr_of prefix k) type_hints = Some h ->
  h raw = Ok v ->
  Str.contains "password" (attr_of prefix k) = true ->
  is_sequence v = false ->
  bind_one type_hints prefix (k, raw) c = ([], Raise TypeError).
Proof.
  intros H1 H2 H3 H4 H5 H6. unfold bind_one.
  fold (no_environ_set_of c). rewrite H1, H2. cbn [negb].
  rewrite (typecast_converted type_hints _ raw h v H3 H4).
  unfold displayed. rewrite H5.
  destruct v; simpl in *; try discriminate; reflexivity.
Qed.

Lemma password_name_needs_sequence_witness :
  bind_one (annotations Cases.PasswordPolicy) "MYAPP_" ("MYAPP_PASSWORD_TTL", "32")
    Cases.PasswordPolicy
  = ([], Raise TypeError).
Proof.
  apply (password_name_needs_sequence (annotations Cases.PasswordPolicy) "MYAPP_"
           "MYAPP_PASSWORD_TTL" "32" Cases.PasswordPolicy Hint.int (VInt 32));
    reflexivity.
Defined.

(** X18. With the empty prefix no variable is passed over: every key starts
    with it, the derived name is the whole key in lower case, and a call
    that returns normally has logged one line for every variable of the
    environment. *)
Theorem empty_prefix_takes_all (c : settings_class) (env : environ) :
  (forall k, Str.startswith k "" = true /\ attr_of "" k = Str.lower k)
  /\ (raised (update_from_env c "" env) = None ->
      length (trace (update_from_env c "" env)) = length env).
Proof.
  split.
  - intros k. split; [now destruct k | reflexivity].
  - unfold update_from_env. intros Hnone.
    rewrite bind_loop_trace_length by assumption. simpl. f_equal.
    clear. induction env as [|[k raw] env IH]; [reflexivity|].
    cbn [filter]. change (matching "" (k, raw)) with (Str.startswith k "").
    replace (Str.startswith k "") with true by now destruct k.
    now rewrite IH.
Qed.

(** ** An optional-settings attribute that is a string *)

Lemma missing_loop_substring (c : settings_class) (s : string) :
  optional_settings_of c = VStr s ->
  forall names acc,
    incl names (vars c) ->
    missing_loop c names acc
    = Ok (acc ++ filter (fun a => negb (Str.startswith a "_")
                                  && negb (Str.contains a s)
                                  && match find_attr c a with
                                     | Some VNone => true
                                     | _ => false
                                     end) names).
Proof.
  intros Hopt names.
  induction names as [|a names IH]; intros acc Hincl; cbn [missing_loop filter].
  - now rewrite app_nil_r.
  - assert (Ha : In a (vars c)) by (apply Hincl; now left).
    assert (Hrest : incl names (vars c)) by (intros x Hx; apply Hincl; now right).
    destruct (Str.startswith a "_"); cbn [negb andb]; [now apply IH|].
    fold (optional_settings_of c). rewrite Hopt. cbn [py_in].
    destruct (Str.contains a s); cbn [negb andb]; [now apply IH|].
    destruct (find_attr_of_var c a Ha) as [v Hv].
    unfold getattr. rewrite Hv.
    destruct v; cbn [is_none]; rewrite IH by assumption; try reflexivity.
    now rewrite <- app_assoc.
Qed.

(** X19. When [_optional_settings] is a string, as ["optional"] written
    without the comma of a one-element tuple is, [in] is a substring test:
    [get_missing_settings] exempts every name that occurs inside that
    string, and reports the other public names that hold [None], in the
    order of definition. *)
Theorem optional_settings_as_string (c : settings_class) (s : string) :
  optional_settings_of c = VStr s ->
  get_missing_settings c
  = Ok (filter (fun a => negb (Str.startswith a "_")
                         && negb (Str.contains a s)
                         && match find_attr c a with
                            | Some VNone => true
                            | _ => false
                            end) (vars c)).
Proof.
  intros Hopt. unfold get_missing_settings.
  rewrite (missing_loop_substring c s Hopt) by apply incl_refl.
  reflexivity.
Qed.

Lemma optional_settings_as_string_witness :
  get_missing_settings ForgottenComma
  = Ok (filter (fun a => negb (Str.startswith a "_")
                         && negb (Str.contains a "optional_dsn")
                         && match find_attr ForgottenComma a with
                            | Some VNone => true
                            | _ => false
                            end) (vars ForgottenComma)).
Proof.
  apply (optional_settings_as_string ForgottenComma "optional_dsn"). reflexivity.
Defined.

(** ** The module's test, in any surrounding environment *)

Lemma filter_none {A : Type} (f : A -> bool) (l : list A) :
  (forall x, In x l -> f x = false) -> filter f l = [].
Proof.
  induction l as [|x l IH]; intros H; [reflexivity|].
  cbn [filter]. rewrite (H x) by now left.
  apply IH. intros y Hy. apply H. now right.
Qed.

(** X20. [test_update_from_env] adds its four variables to the environment
    of the process and calls [update_from_env].  Whatever that environment
    holds besides, as long as none of its keys starts with [MYAPP_], the
    call returns normally and every assertion of the test holds. *)
Theorem test_update_from_env_anywhere (ambient : environ) :
  (forall entry, In entry ambient -> matching "MYAPP_" entry = false) ->
  let r := update_from_env Tests.EnvTestSettings "MYAPP_" (ambient ++ Tests.test_environ) in
  raised r = None
  /\ find_attr (after r) "s1" = Some (VInt 32)
  /\ find_attr (after r) "s2" = Some (VBool true)
  /\ find_attr (after r) "s3" = Some (VStr "a test")
  /\ find_attr (after r) "s4" = Some VNone
  /\ find_attr (after r) "s5" = Some (VTuple [VInt 1; VInt 2; VInt 3]).
Proof.
  intros Hambient r. subst r. unfold update_from_env.
  rewrite bind_loop_matching, filter_app, (filter_none _ _ Hambient).
  repeat split.
Qed.

Lemma test_update_from_env_anywhere_witness :
  let r := update_from_env Tests.EnvTestSettings "MYAPP_"
             ([("PATH", "/usr/bin"); ("HOME", "/root")] ++ Tests.test_environ) in
  raised r = None
  /\ find_attr (after r) "s1" = Some (VInt 32)
  /\ find_attr (after r) "s2" = Some (VBool true)
  /\ find_attr (after r) "s3" = Some (VStr "a test")
  /\ find_attr (after r) "s4" = Some VNone
  /\ find_attr (after r) "s5" = Some (VTuple [VInt 1; VInt 2; VInt 3]).
Proof.
  apply (test_update_from_env_anywhere [("PATH", "/usr/bin"); ("HOME", "/root")]).
  intros entry [<-|[<-|[]]]; reflexivity.
Defined.

(** ** A setting supplied in the environment *)

Section Supplied.

Variable type_hints : list (string * hint).
Variable prefix : string.
Hypothesis Hnone : never_none type_hints.

Lemma bind_loop_own_not_none (env : environ) (c : settings_class) (tr : list string)
    (a : string) (v : value) :
  lookup a (own c) = Some v -> v <> VNone ->
  exists w,
    lookup a (own (after (bind_loop type_hints prefix env c tr))) = Some w
    /\ w <> VNone.
Proof.
  intros Hv Hne.
  destruct (bind_loop_own type_hints prefix (fun _ w => w <> VNone))
    with (env := env) (c := c) (tr := tr) (a := a) as [->|[_ Hw]].
  - intros b h raw w Hh Hr ->. exact (Hnone b h raw Hh Hr).
  - discriminate.
  - eauto.
  - exact Hw.
Qed.

Lemma bind_loop_supplied (env : environ) :
  derives prefix "_no_environ_set" env = false ->
  forall c tr k raw,
    raised (bind_loop type_hints prefix env c tr) = None ->
    In (k, raw) env ->
    Str.startswith k prefix = true ->
    py_in (attr_of prefix k) (no_environ_set_of c) = Ok false ->
    exists v,
      lookup (attr_of prefix k) (own (after (bind_loop type_hints prefix env c tr)))
      = Some v
      /\ v <> VNone.
Proof.
  induction env as [|[k0 raw0] env IH]; intros Hder c tr k raw Hnoraise Hin Hstart Hfree;
    [contradiction|].
  cbn [derives existsb fst] in Hder. apply orb_false_elim in Hder as [Hhead Hrest].
  cbn [bind_loop] in *.
  destruct (bind_one type_hints prefix (k0, raw0) c) as [lines [c1|e]] eqn:Hone;
    [|discriminate].
  assert (Hlist : no_environ_set_of c1 = no_environ_set_of c).
  { apply bind_one_inv in Hone.
    destruct Hone as [[_ [-> _]]|[[_ [_ [-> _]]]|[Hs [_ [v [shown [_ [_ [-> _]]]]]]]]];
      try reflexivity.
    apply no_environ_set_of_with_attr.
    rewrite Hs in Hhead. simpl in Hhead. now apply String.eqb_neq in Hhead. }
  destruct Hin as [Heq|Hin].
  - injection Heq as -> ->.
    apply bind_one_inv in Hone.
    destruct Hone as [[Hs _]|[[_ [Hl _]]|[_ [_ [v [shown [Hv [_ [-> _]]]]]]]]];
      [congruence | congruence |].
    apply bind_loop_own_not_none with (v := v).
    + cbn [with_attr own]. apply lookup_store_same.
    + destruct (typecast_inv _ _ _ _ Hv) as [->|[h [Hh Hr]]]; [discriminate|].
      intros ->. exact (Hnone _ h raw Hh Hr).
  - apply (IH Hrest c1 (tr ++ lines) k raw); auto.
    now rewrite Hlist.
Qed.

End Supplied.

(** X21. A setting supplied in the environment is not reported missing:
    when the call returns normally, no declared type converts to [None] and
    no matching variable derives the name [_no_environ_set], the name
    derived from a matching variable that is not in the no-environ list is
    absent from the result of [get_missing_settings] on the class the call
    leaves. *)
Theorem supplied_setting_not_missing (c : settings_class) (prefix : string)
    (env : environ) (k raw : string) (names : list string) :
  never_none (annotations c) ->
  derives prefix "_no_environ_set" env = false ->
  raised (update_from_env c prefix env) = None ->
  In (k, raw) env ->
  Str.startswith k prefix = true ->
  py_in (attr_of prefix k) (no_environ_set_of c) = Ok false ->
  get_missing_settings (after (update_from_env c prefix env)) = Ok names ->
  ~ In (attr_of prefix k) names.
Proof.
  intros Hnone Hder Hnoraise Hin Hstart Hfree Hrun Hmissing.
  unfold update_from_env, get_missing_settings in *.
  destruct (bind_loop_supplied (annotations c) prefix Hnone env Hder c [] k raw
              Hnoraise Hin Hstart Hfree) as [v [Hv Hne]].
  apply (missing_loop_member _ _ _ _ Hrun) in Hmissing.
  destruct Hmissing as [[]|[_ [_ [_ Hval]]]].
  unfold find_attr in Hval. rewrite Hv in Hval. congruence.
Qed.

Lemma supplied_setting_not_missing_witness :
  ~ In (attr_of "MYAPP_" "MYAPP_S1") ["s4"%string].
Proof.
  apply (supplied_setting_not_missing Tests.EnvTestSettings "MYAPP_" Tests.test_environ
           "MYAPP_S1" "32" ["s4"%string]).
  - exact test_settings_never_none.
  - reflexivity.
  - reflexivity.
  - left. reflexivity.
  - reflexivity.
  - reflexivity.
  - reflexivity.
Defined.

(** ** A name the class refuses *)

(** X22. A matching variable that derives a name a class does not let be
    rebound ([__dict__], [__mro__], [__bases__], [__class__] and the like)
    and gets as far as the [setattr] makes it raise: its trace line has been
    logged, the exception leaves the loop and the class is as the iteration
    found it. *)
Theorem reserved_name_raises
    (type_hints : list (string * hint)) (prefix k raw : string)
    (c : settings_class) (v : value) (shown : string) :
  Str.startswith k prefix = true ->
  py_in (attr_of prefix k) (no_environ_set_of c) = Ok false ->
  typecast type_hints (attr_of prefix k) raw = Ok v ->
  displayed (attr_of prefix k) v = Ok shown ->
  reserved (attr_of prefix k) = true ->
  exists e,
    refused (attr_of prefix k) v = Some e
    /\ bind_one type_hints prefix (k, raw) c
       = ([found_line k (attr_of prefix k) shown], Raise e)
    /\ forall env tr,
         bind_loop type_hints prefix ((k, raw) :: env) c tr
         = {| after := c;
              trace := tr ++ [found_line k (attr_of prefix k) shown];
              raised := Some e |}.
Proof.
  intros H1 H2 H3 H4 Hres.
  destruct (reserved_refused _ v Hres) as [e He].
  assert (Hone : bind_one type_hints prefix (k, raw) c
                 = ([found_line k (attr_of prefix k) shown], Raise e)).
  { rewrite (bind_one_sets _ _ _ _ _ v shown) by assumption.
    now rewrite (setattr_refused _ _ _ e). }
  exists e. repeat split; auto.
  intros env tr. cbn [bind_loop]. now rewrite Hone.
Qed.

Lemma reserved_name_raises_witness :
  exists e,
    refused (attr_of "MYAPP_" "MYAPP___DICT__") (VStr "x") = Some e
    /\ bind_one (annotations Cases.Ports) "MYAPP_" ("MYAPP___DICT__", "x") Cases.Ports
       = ([found_line "MYAPP___DICT__" (attr_of "MYAPP_" "MYAPP___DICT__") "x"], Raise e)
    /\ forall env tr,
         bind_loop (annotations Cases.Ports) "MYAPP_" (("MYAPP___DICT__", "x") :: env)
           Cases.Ports tr
         = {| after := Cases.Ports;
              trace := tr ++ [found_line "MYAPP___DICT__"
                                (attr_of "MYAPP_" "MYAPP___DICT__") "x"];
              raised := Some e |}.
Proof.
  apply (reserved_name_raises (annotations Cases.Ports) "MYAPP_" "MYAPP___DICT__" "x"
           Cases.Ports (VStr "x") "x");
    reflexivity.
Defined.
